(** * aardvark-dns: a shallow embedding of the configuration parser, the
    backend, the per-listener DNS engine, the resolver-file reader and the
    listener reconciliation of the supervisor. *)

From Stdlib Require Import String Ascii.
From stdpp Require Import base gmap sets list strings.

Open Scope string_scope.
Set Warnings "-register-all".

(* ===================================================================== *)
(** ** Strings, as the Rust [str] methods used by the code *)
(* ===================================================================== *)

Module Str.

(** [c.is_ascii_digit()] and [c.to_digit(radix)] for radix 10 and 16. *)
Definition to_digit (radix : N) (c : ascii) : option N :=
  let n := N.of_nat (nat_of_ascii c) in
  if (48 <=? n)%N && (n <=? 57)%N then
    (if (n - 48 <? radix)%N then Some (n - 48)%N else None)
  else if (radix =? 16)%N then
    (if (97 <=? n)%N && (n <=? 102)%N then Some (n - 87)%N
     else if (65 <=? n)%N && (n <=? 70)%N then Some (n - 55)%N
     else None)
  else None.

(** ASCII lowercasing, [char::to_lowercase] on the ASCII range. *)
Definition ascii_lower (c : ascii) : ascii :=
  let n := nat_of_ascii c in
  if Nat.leb 65 n && Nat.leb n 90 then ascii_of_nat (n + 32) else c.

(** [s.to_lowercase()] *)
Fixpoint to_lowercase (s : string) : string :=
  match s with
  | EmptyString => EmptyString
  | String c s' => String (ascii_lower c) (to_lowercase s')
  end.

(** [s.ends_with(suf)]: some tail of [s] is [suf]. *)
Fixpoint ends_with (suf s : string) : bool :=
  String.eqb s suf ||
  match s with
  | EmptyString => false
  | String _ s' => ends_with suf s'
  end.

(** [s.starts_with(pre)] *)
Definition starts_with (pre s : string) : bool := String.prefix pre s.

(** [s.contains(pat)] *)
Fixpoint contains (pat s : string) : bool :=
  String.prefix pat s ||
  match s with
  | EmptyString => false
  | String _ s' => contains pat s'
  end.

(** [s.strip_suffix(suf)] *)
Fixpoint strip_suffix (suf s : string) : option string :=
  if String.eqb s suf then Some EmptyString
  else match s with
       | EmptyString => None
       | String c s' => option_map (String c) (strip_suffix suf s')
       end.

(** [s.truncate(n)]: keep the first [n] characters. *)
Definition truncate (n : nat) (s : string) : string := substring 0 n s.

(** [s.trim_end_matches(pat)]: strip [pat] from the end as long as it is
    there (an empty [pat] strips nothing). *)
Fixpoint trim_end_go (fuel : nat) (pat s : string) : string :=
  match fuel with
  | O => s
  | S f =>
      match strip_suffix pat s with
      | Some p => if String.eqb pat "" then s else trim_end_go f pat p
      | None => s
      end
  end.
Definition trim_end_matches (pat s : string) : string :=
  trim_end_go (S (String.length s)) pat s.

(** [s.split(c)]: always at least one piece. *)
Fixpoint split_char (c : ascii) (s : string) : list string :=
  match s with
  | EmptyString => [EmptyString]
  | String x s' =>
      if Ascii.eqb x c then EmptyString :: split_char c s'
      else match split_char c s' with
           | p :: ps => String x p :: ps
           | [] => [String x EmptyString]
           end
  end.

(** [char::is_whitespace] on the ASCII range. *)
Definition is_ws (c : ascii) : bool :=
  let n := nat_of_ascii c in
  Nat.eqb n 32 || (Nat.leb 9 n && Nat.leb n 13).

(** [s.split_whitespace()]: the non-empty runs of non-whitespace. *)
Fixpoint ws_go (cur : string) (s : string) : list string :=
  match s with
  | EmptyString => if String.eqb cur "" then [] else [cur]
  | String c s' =>
      if is_ws c then (if String.eqb cur "" then ws_go "" s' else cur :: ws_go "" s')
      else ws_go (cur ++ String c EmptyString) s'
  end.
Definition split_whitespace (s : string) : list string := ws_go "" s.

(** [s.split_once(pred)]: split at the first character satisfying [pred]. *)
Fixpoint split_once (p : ascii -> bool) (s : string) : option (string * string) :=
  match s with
  | EmptyString => None
  | String c s' =>
      if p c then Some (EmptyString, s')
      else option_map (fun '(a, b) => (String c a, b)) (split_once p s')
  end.

(** [s.matches(c).count()] *)
Fixpoint count_char (c : ascii) (s : string) : nat :=
  match s with
  | EmptyString => O
  | String x s' => (if Ascii.eqb x c then 1 else 0) + count_char c s'
  end.

(** [v.join(sep)] for a [Vec<&str>] / [Vec<String>]. *)
Fixpoint join (sep : string) (l : list string) : string :=
  match l with
  | [] => ""
  | [x] => x
  | x :: l' => x ++ sep ++ join sep l'
  end.

End Str.

(* ===================================================================== *)
(** ** IP addresses and their parsers ([std::net]) *)
(* ===================================================================== *)

(** [Ipv4Addr] as its 32-bit value, [Ipv6Addr] as its 128-bit value. *)
Inductive IpAddr :=
| V4 (a : N)
| V6 (a : N).

#[global] Instance IpAddr_eq_dec : EqDecision IpAddr.
Proof. solve_decision. Defined.

#[global] Instance IpAddr_countable : Countable IpAddr.
Proof.
  refine (inj_countable'
            (fun ip => match ip with V4 a => inl a | V6 a => inr a end)
            (fun x => match x with inl a => V4 a | inr a => V6 a end) _).
  by intros [].
Defined.

(** [SocketAddr]: [V4(ip, port)] and [V6(ip, port, flowinfo, scope_id)]. *)
Inductive SocketAddr :=
| SockV4 (ip : N) (port : N)
| SockV6 (ip : N) (port : N) (flowinfo : N) (scope_id : N).

Definition sock_port (s : SocketAddr) : N :=
  match s with SockV4 _ p => p | SockV6 _ p _ _ => p end.

(** The parser of [core::net::parser]: a reader on the remaining input. *)
Module IpParse.

(** [read_number(radix, Some(max_digits), allow_zero_prefix)] into an
    integer type whose largest value is [max]. *)
Fixpoint read_digits (radix : N) (maxd : nat) (s : string) (acc : N) (cnt : nat)
  : option (N * nat * string) :=
  match s with
  | String c s' =>
      match Str.to_digit radix c with
      | Some d =>
          if Nat.ltb maxd (S cnt) then None
          else read_digits radix maxd s' (acc * radix + d)%N (S cnt)
      | None => Some (acc, cnt, s)
      end
  | EmptyString => Some (acc, cnt, s)
  end.

Definition read_number (radix : N) (maxd : nat) (allow_zero_prefix : bool) (max : N)
    (s : string) : option (N * string) :=
  let has_leading_zero :=
    match s with String c _ => Ascii.eqb c "0"%char | EmptyString => false end in
  match read_digits radix maxd s 0 0 with
  | None => None
  | Some (v, cnt, rest) =>
      if Nat.eqb cnt 0 then None
      else if negb allow_zero_prefix && has_leading_zero && Nat.ltb 1 cnt then None
      else if (max <? v)%N then None
      else Some (v, rest)
  end.

(** [read_separator(sep, index, inner)] *)
Definition read_separator {A} (sep : ascii) (index : nat)
    (inner : string -> option (A * string)) (s : string) : option (A * string) :=
  if Nat.eqb index 0 then inner s
  else match s with
       | String c s' => if Ascii.eqb c sep then inner s' else None
       | EmptyString => None
       end.

(** [read_ipv4_addr]: four decimal octets separated by dots. *)
Definition read_ipv4 (s : string) : option (N * string) :=
  let octet i := read_separator "." i (read_number 10 3 false 255) in
  match octet 0 s with None => None | Some (a, s1) =>
  match octet 1 s1 with None => None | Some (b, s2) =>
  match octet 2 s2 with None => None | Some (c, s3) =>
  match octet 3 s3 with None => None | Some (d, s4) =>
    Some (((a * 256 + b) * 256 + c) * 256 + d, s4)%N
  end end end end.

(** [read_groups] of [read_ipv6_addr]: at most [limit] groups; a trailing
    embedded IPv4 address fills two groups and ends the run. *)
Fixpoint read_groups (fuel i limit : nat) (s : string) (acc : list N)
  : list N * bool * string :=
  match fuel with
  | O => (acc, false, s)
  | S f =>
      if Nat.leb limit i then (acc, false, s)
      else
        match (if Nat.ltb i (limit - 1) then read_separator ":" i read_ipv4 s else None) with
        | Some (v4, s') =>
            ((acc ++ [N.shiftr v4 16; N.land v4 65535])%list, true, s')
        | None =>
            match read_separator ":" i (read_number 16 4 true 65535) s with
            | Some (g, s') => read_groups f (S i) limit s' (acc ++ [g])%list
            | None => (acc, false, s)
            end
        end
  end.

Definition groups_value (gs : list N) : N :=
  fold_left (fun acc g => acc * 65536 + g)%N gs 0%N.

(** [read_ipv6_addr] *)
Definition read_ipv6 (s : string) : option (N * string) :=
  let '(head, head_ipv4, s1) := read_groups 8 0 8 s [] in
  if Nat.eqb (length head) 8 then Some (groups_value head, s1)
  else if head_ipv4 then None
  else match s1 with
       | String c1 (String c2 s2) =>
           if Ascii.eqb c1 ":" && Ascii.eqb c2 ":" then
             let limit := 8 - (length head + 1) in
             let '(tail, _, s3) := read_groups 8 0 limit s2 [] in
             Some (groups_value (head ++ replicate (8 - length head - length tail) 0%N ++ tail)%list, s3)
           else None
       | _ => None
       end.

(** [parse_with]: the whole input must be consumed. *)
Definition parse_all {A} (r : string -> option (A * string)) (s : string) : option A :=
  match r s with
  | Some (v, EmptyString) => Some v
  | _ => None
  end.

(** [s.parse::<IpAddr>()]: IPv4 first, then IPv6. *)
Definition parse_ip (s : string) : option IpAddr :=
  parse_all (fun s => match read_ipv4 s with
                      | Some (v, r) => Some (V4 v, r)
                      | None => option_map (fun '(v, r) => (V6 v, r)) (read_ipv6 s)
                      end) s.

(** [s.parse::<Ipv4Addr>()] and [s.parse::<Ipv6Addr>()] *)
Definition parse_ipv4 (s : string) : option N := parse_all read_ipv4 s.
Definition parse_ipv6 (s : string) : option N := parse_all read_ipv6 s.

(** [s.parse::<u32>()]: an optional leading [+], then decimal digits. *)
Fixpoint dec_value (s : string) (acc : N) : option N :=
  match s with
  | EmptyString => Some acc
  | String c s' =>
      match Str.to_digit 10 c with
      | Some d => let v := (acc * 10 + d)%N in
                  if (4294967295 <? v)%N then None else dec_value s' v
      | None => None
      end
  end.

Definition parse_u32 (s : string) : option N :=
  match s with
  | EmptyString => None
  | String c EmptyString => if Ascii.eqb c "+" then None else dec_value s 0
  | String c s' => if Ascii.eqb c "+" then dec_value s' 0 else dec_value s 0
  end.

End IpParse.

(* ===================================================================== *)
(** ** Errors ([crate::error]) and results *)
(* ===================================================================== *)

(** The [std::io::ErrorKind]s that matter to the code. *)
Inductive IoErrorKind := NotFound | PermissionDenied | InvalidData | OtherIo.

#[global] Instance IoErrorKind_eq_dec : EqDecision IoErrorKind.
Proof. solve_decision. Defined.

(** [AardvarkError]; [Nix] stands for an [Errno] from the [nix] crate and
    [AddrParse] for [std::net::AddrParseError]. *)
Inductive AardvarkError :=
| Msg (m : string)
| IOError (k : IoErrorKind)
| AddrParse
| Nix
| Chain (m : string) (inner : AardvarkError)
| List (errs : list AardvarkError).

(** [Result<T, E>] *)
Inductive result (A E : Type) := Ok (a : A) | Err (e : E).
Arguments Ok {A E} a.
Arguments Err {A E} e.

Definition bind_res {A B E} (r : result A E) (k : A -> result B E) : result B E :=
  match r with Ok a => k a | Err e => Err e end.

(** The [?] operator. *)
Notation "'let?' x ':=' r 'in' k" := (bind_res r (fun x => k))
  (at level 200, x name, r at level 100, k at level 200).

(** [.wrap(msg)] of [AardvarkWrap]. *)
Definition wrap {A} (m : string) (r : result A AardvarkError) : result A AardvarkError :=
  match r with Ok a => Ok a | Err e => Err (Chain m e) end.

Definition is_ok {A E} (r : result A E) : bool :=
  match r with Ok _ => true | Err _ => false end.

(* ===================================================================== *)
(** ** Resolver-file reader ([server::serve::parse_resolv_conf]) *)
(* ===================================================================== *)

Module Resolv.

(** [DNS_PORT] *)
Definition DNS_PORT : N := 53.

Section Resolv.

(** [nix::net::if_::if_nametoindex]: the OS interface table. *)
Variable if_nametoindex : string -> option N.

(** The handling of the address token of one [nameserver] line. *)
Definition nameserver_addr (ip : string) : result SocketAddr AardvarkError :=
  let? scope_ip :=
    match Str.split_once (fun c => Ascii.eqb c "%") ip with
    | Some (ip', scope_name) =>
        let? id := match IpParse.parse_u32 scope_name with
              | Some id => Ok id
              | None =>
                  wrap "resolve scope id"
                    (match if_nametoindex scope_name with
                     | Some id => Ok id
                     | None => Err Nix
                     end)
              end in
        Ok (Some id, ip')
    | None => Ok (None, ip)
    end in
  let '(scope, ip') := scope_ip in
  let? a := wrap ip' (match IpParse.parse_ip ip' with Some a => Ok a | None => Err AddrParse end) in
  match a with
  | V4 a4 =>
      match scope with
      | Some _ => Err (Msg "scope id not supported for ipv4 address")
      | None => Ok (SockV4 a4 DNS_PORT)
      end
  | V6 a6 => Ok (SockV6 a6 DNS_PORT 0 (default 0%N scope))
  end.

(** The line loop of [parse_resolv_conf], pushing onto [nameservers]. *)
Fixpoint parse_lines (lines : list string) (nameservers : list SocketAddr)
  : result (list SocketAddr) AardvarkError :=
  match lines with
  | [] => Ok nameservers
  | line :: rest =>
      let line := match Str.split_once (fun c => Ascii.eqb c "#" || Ascii.eqb c ";") line with
                  | Some (f, _) => f
                  | None => line
                  end in
      match Str.split_whitespace line with
      | first :: parts =>
          if String.eqb first "nameserver" then
            match parts with
            | ip :: _ =>
                let? addr := nameserver_addr ip in
                parse_lines rest (nameservers ++ [addr])%list
            | [] => parse_lines rest nameservers
            end
          else parse_lines rest nameservers
      | [] => parse_lines rest nameservers
      end
  end.

(** [parse_resolv_conf] *)
Definition parse_resolv_conf (content : string) : result (list SocketAddr) AardvarkError :=
  let? nameservers := parse_lines (Str.split_char "010"%char content) [] in
  Ok (firstn 3 nameservers).

(** The statement side: the address token of each [nameserver] line, in
    file order, and the list of their endpoints. *)
Definition line_nameserver_arg (line : string) : option string :=
  let line := match Str.split_once (fun c => Ascii.eqb c "#" || Ascii.eqb c ";") line with
              | Some (f, _) => f
              | None => line
              end in
  match Str.split_whitespace line with
  | first :: ip :: _ => if String.eqb first "nameserver" then Some ip else None
  | _ => None
  end.

Definition nameserver_args (content : string) : list string :=
  omap line_nameserver_arg (Str.split_char "010"%char content).

(** The two halves of an address token around its first [%]. *)
Definition scope_split (t : string) : string * option string :=
  match Str.split_once (fun c => Ascii.eqb c "%") t with
  | Some (ip, sc) => (ip, Some sc)
  | None => (t, None)
  end.

Fixpoint map_res {A B E} (f : A -> result B E) (l : list A) : result (list B) E :=
  match l with
  | [] => Ok []
  | x :: l' => let? y := f x in let? ys := map_res f l' in Ok (y :: ys)
  end.

End Resolv.
End Resolv.

Definition no_ifaces : string -> option N := fun _ => None.
Definition lo_only : string -> option N :=
  fun s => if String.eqb s "lo" then Some 1%N else None.


(* ===================================================================== *)
(** ** Backend ([backend::DNSBackend]) *)
(* ===================================================================== *)

Module Backend.

Record DNSBackend := {
  ip_mappings : gmap IpAddr (list string);
  name_mappings : gmap string (gmap string (list IpAddr));
  reverse_mappings : gmap string (gmap IpAddr (list string));
  ctr_dns_server : gmap IpAddr (option (list IpAddr));
  network_dns_server : gmap string (list IpAddr);
  network_is_internal : gmap string bool;
  search_domain : string
}.

(** [s.chars().rev().nth(0)] *)
Fixpoint last_char (s : string) : option ascii :=
  match s with
  | EmptyString => None
  | String c EmptyString => Some c
  | String _ s' => last_char s'
  end.

(** [DNSBackend::new]: a search domain not ending with a dot gets one. *)
Definition new (containers : gmap IpAddr (list string))
    (networks : gmap string (gmap string (list IpAddr)))
    (reverse : gmap string (gmap IpAddr (list string)))
    (ctr_dns_server : gmap IpAddr (option (list IpAddr)))
    (network_dns_server : gmap string (list IpAddr))
    (network_is_internal : gmap string bool)
    (search_domain : string) : DNSBackend :=
  let search_domain :=
    match last_char search_domain with
    | Some c => if Ascii.eqb c "." then search_domain else search_domain ++ "."
    | None => search_domain
    end in
  {| ip_mappings := containers; name_mappings := networks; reverse_mappings := reverse;
     ctr_dns_server := ctr_dns_server; network_dns_server := network_dns_server;
     network_is_internal := network_is_internal; search_domain := search_domain |}.

(** The name normalisation at the start of [lookup]. *)
Definition lookup_name (b : DNSBackend) (entry : string) : string :=
  let name := Str.to_lowercase entry in
  let name :=
    if Str.ends_with (search_domain b) name
    then Str.truncate (String.length name - String.length (search_domain b)) name
    else name in
  if Str.ends_with "." name then Str.truncate (String.length name - 1) name else name.

(** [lookup(requester, network_name, entry)] *)
Definition lookup (b : DNSBackend) (requester : IpAddr) (network_name : string)
    (entry : string) : option (list IpAddr) :=
  let name := lookup_name b entry in
  let nets := match ip_mappings b !! requester with
              | Some n => n
              | None => [network_name]
              end in
  let results :=
    fold_left (fun results net =>
                 match name_mappings b !! net with
                 | None => results
                 | Some net_names =>
                     match net_names !! name with
                     | Some addrs => (results ++ addrs)%list
                     | None => results
                     end
                 end) nets [] in
  match results with
  | [] => None
  | _ => Some results
  end.

(** [get_network_scoped_resolvers] *)
Definition get_network_scoped_resolvers (b : DNSBackend) (requester : IpAddr)
  : option (list IpAddr) :=
  match ip_mappings b !! requester with
  | Some nets =>
      Some (fold_left (fun results net =>
                         match network_dns_server b !! net with
                         | Some resolvers => (results ++ resolvers)%list
                         | None => results
                         end) nets [])
  | None => None
  end.

(** [ctr_is_internal] *)
Definition ctr_is_internal (b : DNSBackend) (requester : IpAddr) : bool :=
  match ip_mappings b !! requester with
  | Some nets =>
      forallb (fun net => match network_is_internal b !! net with
                          | Some internal => internal
                          | None => true
                          end) nets
  | None => false
  end.

(** [reverse_lookup] *)
Definition reverse_lookup (b : DNSBackend) (requester lookup_ip : IpAddr)
  : option (list string) :=
  match ip_mappings b !! requester with
  | None => None
  | Some nets =>
      let fix go nets :=
        match nets with
        | [] => None
        | net :: nets' =>
            match reverse_mappings b !! net with
            | Some ips =>
                match ips !! lookup_ip with
                | Some names => Some names
                | None => go nets'
                end
            | None => go nets'
            end
        end in
      go nets
  end.

End Backend.

(* ===================================================================== *)
(** ** Concrete inputs used by the examples below *)
(* ===================================================================== *)

Module Fixtures.

Definition ip4 (a b c d : N) : IpAddr := V4 (((a * 256 + b) * 256 + c) * 256 + d)%N.

(** One network [podman] with a container [a] at 10.88.0.4, queried from
    10.88.0.2, with the default filter search domain [.dns.podman]. *)
Definition lookup_backend : Backend.DNSBackend :=
  Backend.new {[ ip4 10 88 0 2 := ["podman"]; ip4 10 88 0 4 := ["podman"] ]}
              {[ "podman" := {[ "a" := [ip4 10 88 0 4] ]} ]}
              ∅ ∅ ∅ ∅ ".dns.podman".

End Fixtures.

(* ===================================================================== *)
(** ** Configuration parser ([config::parse_configs], [parse_config]) *)
(* ===================================================================== *)

Module Config.

(** Modelled from the spec: [config::constants] (not in the sources): the
    PID file name [aardvark.pid] and the internal-network suffix [%int]. *)
Definition AARDVARK_PID_FILE : string := "aardvark.pid".
Definition INTERNAL_SUFFIX : string := "%int".

(** [CtrEntry]: one container line; IPv4 and IPv6 addresses as values. *)
Record CtrEntry := {
  id : string;
  v4 : option (list N);
  v6 : option (list N);
  aliases : list string;
  dns_servers : option (list IpAddr)
}.

(** [ParsedNetworkConfig] *)
Record ParsedNetworkConfig := {
  network_bind_ip : list IpAddr;
  container_entry : list CtrEntry;
  network_dnsservers : list IpAddr
}.

(** [s.split(',').map(|i| i.parse()).collect::<Result<Vec<_>, _>>()] *)
Definition parse_list {A} (p : string -> option A) (s : string) : result (list A) AardvarkError :=
  Resolv.map_res (fun i => match p i with Some a => Ok a | None => Err AddrParse end)
                 (Str.split_char "," s).

(** [parts[n]] (only read where the length was checked). *)
Definition nth_part (parts : list string) (n : nat) : string := default "" (parts !! n).

(** [if !s.is_empty() { Some(parse s?) } else { None }] *)
Definition parse_opt {A} (ctx : string) (p : string -> option A) (s : string)
  : result (option (list A)) AardvarkError :=
  if String.eqb s "" then Ok None
  else let? l := wrap ctx (parse_list p s) in Ok (Some l).

(** One container line of [parse_config]. *)
Definition parse_ctr_line (line : string) : result CtrEntry AardvarkError :=
  let parts := Str.split_char " " line in
  if Nat.ltb (length parts) 4 then
    Err (Msg "configuration file line is improperly formatted - too few entries")
  else
    let? v4_addrs := parse_opt "error parsing IP address" IpParse.parse_ipv4 (nth_part parts 1) in
    let? v6_addrs := parse_opt "error parsing IP address" IpParse.parse_ipv6 (nth_part parts 2) in
    let aliases := map Str.to_lowercase (Str.split_char "," (nth_part parts 3)) in
    let? dns := if Nat.eqb (length parts) 5
                then parse_opt "error parsing DNS server address" IpParse.parse_ip (nth_part parts 4)
                else Ok None in
    Ok {| id := Str.to_lowercase (nth_part parts 0); v4 := v4_addrs; v6 := v6_addrs;
          aliases := aliases; dns_servers := dns |}.

(** The line loop of [parse_config]. *)
Fixpoint parse_config_lines (lines : list string) (is_first : bool)
    (bind_addrs network_dns_servers : list IpAddr) (ctrs : list CtrEntry)
  : result ParsedNetworkConfig AardvarkError :=
  match lines with
  | [] =>
      match bind_addrs with
      | [] => Err (Msg "configuration file does not provide any bind addresses")
      | _ => Ok {| network_bind_ip := bind_addrs; container_entry := ctrs;
                   network_dnsservers := network_dns_servers |}
      end
  | line :: rest =>
      if String.eqb line "" then parse_config_lines rest is_first bind_addrs network_dns_servers ctrs
      else if is_first then
        let network_parts := Str.split_char " " line in
        let? binds := wrap "error parsing ip address"
                        (parse_list IpParse.parse_ip (nth_part network_parts 0)) in
        let? dns := if Nat.ltb 1 (length network_parts)
                    then wrap "error parsing network dns address"
                           (parse_list IpParse.parse_ip (nth_part network_parts 1))
                    else Ok [] in
        parse_config_lines rest false (bind_addrs ++ binds)%list
                           (network_dns_servers ++ dns)%list ctrs
      else
        let? c := parse_ctr_line line in
        parse_config_lines rest false bind_addrs network_dns_servers (ctrs ++ [c])%list
  end.

(** [parse_config]: the file read ([read_to_string(path)?]) and parsed. *)
Definition parse_config (file : result string IoErrorKind) : result ParsedNetworkConfig AardvarkError :=
  match file with
  | Err k => Err (IOError k)
  | Ok content => parse_config_lines (Str.split_char "010"%char content) true [] [] []
  end.

(** A directory entry of [read_dir]: a listing error, or a file with its
    name ([None] when it is not valid UTF-8) and what reading it gives. *)
Inductive DirEntry :=
| EntryErr (k : IoErrorKind)
| Entry (file_name : option string) (file : result string IoErrorKind).

(** The config directory: what [metadata(dir)?.is_dir()] and
    [read_dir(dir)?] give. *)
Record ConfigDir := {
  dir_is_dir : result bool IoErrorKind;
  dir_entries : result (list DirEntry) IoErrorKind
}.

(** The maps [parse_configs] builds while it walks the directory. *)
Record ParseState := {
  network_membership : gmap string (list string);
  container_ips : gmap string (list IpAddr);
  reverse : gmap string (gmap IpAddr (list string));
  network_names : gmap string (gmap string (list IpAddr));
  listen_ips_4 : gmap string (list N);
  listen_ips_6 : gmap string (list N);
  ctr_dns_server : gmap IpAddr (option (list IpAddr));
  network_dns_server : gmap string (list IpAddr);
  network_is_internal : gmap string bool
}.

Definition empty_state : ParseState :=
  {| network_membership := ∅; container_ips := ∅; reverse := ∅; network_names := ∅;
     listen_ips_4 := ∅; listen_ips_6 := ∅; ctr_dns_server := ∅;
     network_dns_server := ∅; network_is_internal := ∅ |}.

(** [m.entry(k).or_default().append(xs)] *)
Definition append_at {K A} `{Countable K} (m : gmap K (list A)) (k : K) (xs : list A)
  : gmap K (list A) :=
  <[k := (default [] (m !! k) ++ xs)%list]> m.

End Config.

Module ConfigWalk.
Import Config.

(** The addresses of a container line, IPv4 first: the two loops
    [for ip in v4] and [for ip in v6] run one after the other. *)
Definition entry_ips (e : CtrEntry) : list IpAddr :=
  (map V4 (default [] (v4 e)) ++ map V6 (default [] (v6 e)))%list.

(** The body of [for ip in ...] on one container address:
    reverse entry, container DNS (non-internal networks only), and
    [new_ctr_ips.push(ip)]. *)
Definition ip_step (net : string) (internal : bool) (e : CtrEntry)
    (acc : gmap string (gmap IpAddr (list string)) * gmap IpAddr (option (list IpAddr)) * list IpAddr)
    (ip : IpAddr) :=
  let '(rev, ctr_dns, new_ctr_ips) := acc in
  (<[net := append_at (default ∅ (rev !! net)) ip (aliases e)]> rev,
   (if internal then ctr_dns else <[ip := dns_servers e]> ctr_dns),
   (new_ctr_ips ++ [ip])%list).

(** The body of [for entry in parsed_network_config.container_entry]. *)
Definition ctr_step (net : string) (internal : bool) (st : ParseState) (e : CtrEntry) : ParseState :=
  let ctr_networks := default [] (network_membership st !! id e) in
  let membership :=
    <[id e := if bool_decide (net ∈ ctr_networks) then ctr_networks
              else (ctr_networks ++ [net])%list]> (network_membership st) in
  let '(rev, ctr_dns, new_ctr_ips) :=
    fold_left (ip_step net internal e) (entry_ips e) (reverse st, ctr_dns_server st, []) in
  let cips := append_at (container_ips st) (id e) new_ctr_ips in
  let network_aliases :=
    fold_left (fun m alias => append_at m alias new_ctr_ips) (aliases e)
              (default ∅ (network_names st !! net)) in
  {| network_membership := membership;
     container_ips := cips;
     reverse := rev;
     network_names := <[net := network_aliases]> (network_names st);
     listen_ips_4 := listen_ips_4 st;
     listen_ips_6 := listen_ips_6 st;
     ctr_dns_server := ctr_dns;
     network_dns_server := network_dns_server st;
     network_is_internal := <[net := internal]> (network_is_internal st) |}.

(** Everything [parse_configs] does with one successfully parsed file. *)
Definition network_step (st : ParseState) (net : string) (internal : bool)
    (pc : ParsedNetworkConfig) : ParseState :=
  let nds := network_dns_server st in
  let nds := if negb (bool_decide (network_dnsservers pc = [])) && negb internal
             then <[net := network_dnsservers pc]> nds else nds in
  let nds := if internal then <[net := []]> nds else nds in
  let '(l4, l6) :=
    fold_left (fun '(l4, l6) ip =>
                 match ip with
                 | V4 a => (append_at l4 net [a], l6)
                 | V6 b => (l4, append_at l6 net [b])
                 end) (network_bind_ip pc) (listen_ips_4 st, listen_ips_6 st) in
  let st := {| network_membership := network_membership st;
               container_ips := container_ips st;
               reverse := reverse st;
               network_names := network_names st;
               listen_ips_4 := l4; listen_ips_6 := l6;
               ctr_dns_server := ctr_dns_server st;
               network_dns_server := nds;
               network_is_internal := network_is_internal st |} in
  fold_left (ctr_step net internal) (container_entry pc) st.

(** The network name and internal flag of a file name. *)
Definition network_of_file (name : string) : string * bool :=
  (default name (Str.strip_suffix INTERNAL_SUFFIX name),
   Str.ends_with INTERNAL_SUFFIX name).

(** The body of [for config in configs]. *)
Definition entry_step (st : ParseState) (e : DirEntry) : result ParseState AardvarkError :=
  match e with
  | EntryErr _ => Ok st
  | Entry fname file =>
      if bool_decide (fname = Some AARDVARK_PID_FILE) then Ok st
      else
        match parse_config file with
        | Err _ => Ok st
        | Ok pc =>
            match fname with
            | None => Err (Msg "configuration file name has non-UTF8 characters")
            | Some name =>
                let '(net, internal) := network_of_file name in
                Ok (network_step st net internal pc)
            end
        end
  end.

(** The directory walk. *)
Definition walk (entries : list DirEntry) : result ParseState AardvarkError :=
  fold_left (fun acc e => let? st := acc in entry_step st e) entries (Ok empty_state).

(** The [ctrs] table: requester IP to network list. *)
Definition build_ctrs (st : ParseState) : result (gmap IpAddr (list string)) AardvarkError :=
  fold_left (fun acc '(ctr_id, ips) =>
               let? ctrs := acc in
               match network_membership st !! ctr_id with
               | Some s => Ok (fold_left (fun ctrs ip => append_at ctrs ip s) ips ctrs)
               | None => Err (Msg "Container ID has an entry in IPs table, but not network membership table")
               end) (map_to_list (container_ips st)) (Ok ∅).

(** [parse_configs] *)
Definition parse_configs (dir : ConfigDir) (filter_search_domain : string)
  : result (Backend.DNSBackend * gmap string (list N) * gmap string (list N)) AardvarkError :=
  let? is_dir := match dir_is_dir dir with Ok b => Ok b | Err k => Err (IOError k) end in
  if negb is_dir then Err (Msg "config directory must exist and be a directory")
  else
    let? entries := match dir_entries dir with Ok l => Ok l | Err k => Err (IOError k) end in
    let? st := walk entries in
    let? ctrs := build_ctrs st in
    Ok (Backend.new ctrs (network_names st) (reverse st) (ctr_dns_server st)
                    (network_dns_server st) (network_is_internal st) filter_search_domain,
        listen_ips_4 st, listen_ips_6 st).

(** The statement side: what a directory entry contributes when it is
    processed, [None] when it is skipped. *)
Definition entry_config (e : DirEntry) : option (string * bool * ParsedNetworkConfig) :=
  match e with
  | Entry (Some name) file =>
      if bool_decide (name = AARDVARK_PID_FILE) then None
      else match parse_config file with
           | Ok pc => let '(net, internal) := network_of_file name in Some (net, internal, pc)
           | Err _ => None
           end
  | _ => None
  end.

End ConfigWalk.

Module ConfigFixtures.
Import Config.

Definition podman_file : string :=
  "10.88.0.1
7b46c7ad93fc 10.88.0.2  condescendingnash
88dde8a24897 10.88.0.4  trustingzhukovsky,ctr1,ctra
a1b2c3d4e5f6 10.88.0.5  helloworld
".

(** A file whose container line has only three fields. *)
Definition broken_file : string :=
  "10.90.0.1
c1 10.90.0.2 name
".

Definition dir_of (l : list DirEntry) : ConfigDir :=
  {| dir_is_dir := Ok true; dir_entries := Ok l |}.

Definition good_and_broken : ConfigDir :=
  dir_of [Entry (Some "podman") (Ok podman_file); Entry (Some "broken") (Ok broken_file)].

(** An internal network [podman%int] and a plain network file [podman],
    both listing 10.88.0.2 with container resolvers. *)
Definition internal_and_plain : ConfigDir :=
  dir_of [Entry (Some "podman%int") (Ok "10.88.0.1 8.8.8.8
c1 10.88.0.2  a 1.1.1.1
");
          Entry (Some "podman") (Ok "10.88.0.1 9.9.9.9
c2 10.88.0.2  b 1.0.0.1
")].

(** An internal network file alone. *)
Definition internal_entry : DirEntry :=
  Entry (Some "podman%int") (Ok "10.88.0.1 8.8.8.8
c1 10.88.0.2  a 1.1.1.1
").

Definition internal_pc : ParsedNetworkConfig :=
  match internal_entry with
  | Entry _ file =>
      match parse_config file with
      | Ok pc => pc
      | Err _ => {| network_bind_ip := []; container_entry := []; network_dnsservers := [] |}
      end
  | EntryErr _ => {| network_bind_ip := []; container_entry := []; network_dnsservers := [] |}
  end.

End ConfigFixtures.

(* --------------------------------------------------------------------- *)
(** ** Listener reconcile: [stop_and_start_threads] (server/serve.rs) *)
(* --------------------------------------------------------------------- *)

(** A listener registry is a [ThreadHandleMap<Ip>]: it maps a listener
    identity [(network_name, ip)] to the [(shutdown_tx, JoinHandle)] pair
    of its task.  The pair is represented by the task's identifier.  The
    registry is threaded through explicitly, together with a counter
    that hands out identifiers for spawned tasks and a log of the task
    starts and stops the step performs. *)
Module Reconcile.
Section Reconcile.
Context {Ip : Type} `{Countable Ip}.

(** [format!("{addr}")] of [SocketAddr::new(ip.into(), port)]. *)
Variable addr_to_string : Ip -> N -> string.
(** Outcome of [UdpSocket::bind(addr)] and [TcpListener::bind(addr)]:
    [None] when the bind succeeds, the io error kind otherwise. *)
Variable udp_bind tcp_bind : Ip -> N -> option IoErrorKind.

Definition key := (string * Ip)%type.

Inductive Event :=
| Stopped (k : key) (task : nat)   (* [drop(tx)] and [handle.await] *)
| Spawned (k : key) (task : nat).  (* [tokio::spawn(start_dns_server(..))] *)

Record RState := {
  thread_handles : gmap key nat;
  next_task : nat;
  log : list Event
}.

(** [expected_threads]: the set of [(network_name, ip)] pairs of the
    listen plan [listen_ips : HashMap<String, Vec<Ip>>]. *)
Definition expected_threads (listen_ips : gmap string (list Ip)) : gset key :=
  fold_left (fun acc '(network_name, listen_ip_list) =>
               fold_left (fun acc ip => {[(network_name, ip)]} ∪ acc) listen_ip_list acc)
            (map_to_list listen_ips) ∅.

(** [stop_threads]: [thread_handles.remove(&key).unwrap()] panics on a
    missing key, modelled by [None]. *)
Definition stop_one (acc : option RState) (k : key) : option RState :=
  match acc with
  | None => None
  | Some st =>
      match thread_handles st !! k with
      | None => None
      | Some task =>
          Some {| thread_handles := delete k (thread_handles st);
                  next_task := next_task st;
                  log := (log st ++ [Stopped k task])%list |}
      end
  end.

Definition stop_threads (st : RState) (filter : option (list key)) : option RState :=
  let to_shut_down :=
    match filter with
    | Some l => l
    | None => map fst (map_to_list (thread_handles st))
    end in
  fold_left stop_one to_shut_down (Some st).

(** One iteration of the [for (network_name, ip) in to_start] loop. *)
Definition start_one (port : N) (acc : list AardvarkError * RState) (k : key)
    : list AardvarkError * RState :=
  let '(errors, st) := acc in
  let '(network_name, ip) := k in
  match udp_bind ip port with
  | Some e =>
      ((errors ++ [Chain ("failed to bind udp listener on " ++ addr_to_string ip port)
                         (IOError e)])%list, st)
  | None =>
      match tcp_bind ip port with
      | Some e =>
          ((errors ++ [Chain ("failed to bind tcp listener on " ++ addr_to_string ip port)
                             (IOError e)])%list, st)
      | None =>
          (errors,
           {| thread_handles := <[(network_name, ip) := next_task st]> (thread_handles st);
              next_task := S (next_task st);
              log := (log st ++ [Spawned (network_name, ip) (next_task st)])%list |})
      end
  end.

Definition stop_and_start_threads (port : N) (listen_ips : gmap string (list Ip))
    (st : RState) : option (result unit AardvarkError * RState) :=
  let expected := expected_threads listen_ips in
  let to_shut_down :=
    filter (fun k => k ∉ expected) (map fst (map_to_list (thread_handles st))) in
  match stop_threads st (Some to_shut_down) with
  | None => None
  | Some st1 =>
      let to_start := filter (fun k => thread_handles st1 !! k = None) (elements expected) in
      let '(errors, st2) := fold_left (start_one port) to_start ([], st1) in
      match errors with
      | [] => Some (Ok tt, st2)
      | _ => Some (Err (List errors), st2)
      end
  end.

End Reconcile.

Arguments RState Ip {_ _}.

(** The two calls of [read_config_and_spawn]: the IPv4 registry first,
    then the IPv6 one; an error of either call is collected. *)
Definition stop_and_start_both
    (addr4 addr6 : N -> N -> string)
    (udp4 tcp4 udp6 tcp6 : N -> N -> option IoErrorKind)
    (port : N) (listen_ip_v4 listen_ip_v6 : gmap string (list N))
    (handles_v4 handles_v6 : RState N)
    : option (list AardvarkError * RState N * RState N) :=
  match stop_and_start_threads addr4 udp4 tcp4 port listen_ip_v4 handles_v4 with
  | None => None
  | Some (r4, h4) =>
      match stop_and_start_threads addr6 udp6 tcp6 port listen_ip_v6 handles_v6 with
      | None => None
      | Some (r6, h6) =>
          let errs4 := match r4 with Ok _ => [] | Err e => [e] end in
          let errs6 := match r6 with Ok _ => [] | Err e => [e] end in
          Some ((errs4 ++ errs6)%list, h4, h6)
      end
  end.

End Reconcile.

(* ===================================================================== *)
(** ** DNS engine ([dns::coredns]: [register_port], [reply], [forward_dns_req]) *)
(* ===================================================================== *)

Module Engine.
Import Backend.

(** The parts of a [trust_dns_proto] message the engine reads or writes.
    A [Name] is represented by its text, as [q.name().to_string()] gives it;
    [Name::new()] is the empty name. *)
Inductive RecordType := A | AAAA | PTR | OtherType (code : N).
Inductive MessageType := Query | Response.
Inductive ResponseCode := NoError | NXDomain | OtherCode (code : N).
Inductive DNSClass := IN | OtherClass (code : N).
Inductive RData := RA (a : N) | RAAAA (a : N) | RPTR (target : string).

Record DRecord := {
  rec_name : string;
  ttl : N;
  rr_type : RecordType;
  dns_class : DNSClass;
  data : option RData
}.

Record DQuery := {
  qname : string;
  query_type : RecordType
}.

Record Message := {
  id : N;
  message_type : MessageType;
  recursion_desired : bool;
  recursion_available : bool;
  response_code : ResponseCode;
  queries : list DQuery;
  answers : list DRecord
}.

Definition set_id (i : N) (m : Message) : Message :=
  {| id := i; message_type := message_type m; recursion_desired := recursion_desired m;
     recursion_available := recursion_available m; response_code := response_code m;
     queries := queries m; answers := answers m |}.

Definition set_message_type (t : MessageType) (m : Message) : Message :=
  {| id := id m; message_type := t; recursion_desired := recursion_desired m;
     recursion_available := recursion_available m; response_code := response_code m;
     queries := queries m; answers := answers m |}.

Definition set_recursion_available (b : bool) (m : Message) : Message :=
  {| id := id m; message_type := message_type m; recursion_desired := recursion_desired m;
     recursion_available := b; response_code := response_code m;
     queries := queries m; answers := answers m |}.

Definition set_response_code (c : ResponseCode) (m : Message) : Message :=
  {| id := id m; message_type := message_type m; recursion_desired := recursion_desired m;
     recursion_available := recursion_available m; response_code := c;
     queries := queries m; answers := answers m |}.

Definition add_answer (r : DRecord) (m : Message) : Message :=
  {| id := id m; message_type := message_type m; recursion_desired := recursion_desired m;
     recursion_available := recursion_available m; response_code := response_code m;
     queries := queries m; answers := (answers m ++ [r])%list |}.

(** [Record::new()]: empty name, TTL 0, type NULL, class IN, no data. *)
Definition record_new : DRecord :=
  {| rec_name := ""; ttl := 0; rr_type := OtherType 10; dns_class := IN; data := None |}.

(** [Record::new().set_name(n).set_ttl(t).set_rr_type(ty).set_dns_class(c).set_data(d)],
    with [set_name] optional. *)
Definition mk_record (name : option string) (t : N) (ty : RecordType) (c : DNSClass)
    (d : option RData) : DRecord :=
  {| rec_name := match name with Some n => n | None => rec_name record_new end;
     ttl := t; rr_type := ty; dns_class := c; data := d |}.

(** Modelled from the spec: [DNSResult], the result type of the
    two-argument [DNSBackend::lookup] the engine calls (neither is in the
    sources, whose backend has a three-argument lookup). *)
Inductive DNSResult := Success (ips : list IpAddr) | NoSuchName.

(** Modelled from the spec: Forward lookup with no fallback network, so an
    unknown requester gets absence; a known requester is served by the
    backend's own lookup, which then does not use the fallback. *)
Definition lookup2 (b : DNSBackend) (requester : IpAddr) (entry : string) : DNSResult :=
  match ip_mappings b !! requester with
  | None => NoSuchName
  | Some _ =>
      match lookup b requester "" entry with
      | Some ips => Success ips
      | None => NoSuchName
      end
  end.

(** The fields of [CoreDns] the message handler reads. *)
Record CoreDns := {
  network_name : string;
  backend : DNSBackend;
  filter_search_domain : string;
  resolv_conf : list IpAddr   (* [resolv_conf.nameservers] of the host *)
}.

Definition sock_ip (s : SocketAddr) : IpAddr :=
  match s with SockV4 ip _ => V4 ip | SockV6 ip _ _ _ => V6 ip end.

(** What the handler does with the network: [Reply] is a serialized
    message sent to the client, [Forward] the [tokio::spawn] of the task
    forwarding [req] to [nameservers] (see [forward_task]). *)
Inductive Event :=
| Reply (to : SocketAddr) (msg : Message)
| Forward (to : SocketAddr) (nameservers : list IpAddr) (req : Message).

(** [parse_dns_msg] on a decoded message: the first query's name and type,
    [""] and [A] when there is none. *)
Definition parse_dns_msg (msg : Message) : string * RecordType :=
  match queries msg with
  | q :: _ => (qname q, query_type q)
  | [] => ("", A)
  end.

(** The [while ptr_lookup_ip.len() > 4 { split_off(4) }] loop and the
    final push of a non-empty rest. *)
Fixpoint split_off4 (fuel : nat) (s : string) : list string :=
  match fuel with
  | O => if Nat.eqb (String.length s) 0 then [] else [s]
  | S f =>
      if Nat.ltb 4 (String.length s)
      then substring 0 4 s :: split_off4 f (substring 4 (String.length s - 4) s)
      else if Nat.eqb (String.length s) 0 then [] else [s]
  end.

(** The address text rebuilt from a reverse query name. *)
Definition ptr_lookup_ip (name : string) : string :=
  if Str.contains ".in-addr.arpa." name then
    Str.join "." (rev (Str.split_char "."%char (Str.trim_end_matches ".in-addr.arpa." name)))
  else if Str.contains ".ip6.arpa." name then
    let s := String.concat "" (rev (Str.split_char "."%char
                                      (Str.trim_end_matches ".ip6.arpa." name))) in
    Str.join ":" (split_off4 (String.length s) s)
  else "not an ip".

(** The container-scoped resolvers if configured, else the network-scoped
    ones; the host's when that list is empty. *)
Definition dns_resolver_nameservers (srv : CoreDns) (src_ip : IpAddr) : list IpAddr :=
  let b := backend srv in
  let nameservers_scoped :=
    match ctr_dns_server b !! src_ip with
    | Some (Some dns_servers) => match dns_servers with [] => [] | _ => dns_servers end
    | _ => match get_network_scoped_resolvers b src_ip with
           | Some network_dns_servers => network_dns_servers
           | None => []
           end
    end in
  match nameservers_scoped with
  | [] => resolv_conf srv
  | _ => nameservers_scoped
  end.

(** [request_name.ends_with(suf)] followed by [strip_suffix] and
    [push('.')]; [None] is the [continue] on a failed strip. *)
Definition strip_and_dot (suf request_name : string) : option string :=
  if Str.ends_with suf request_name then
    match Str.strip_suffix suf request_name with
    | Some value => Some (value ++ ".")
    | None => None
    end
  else Some request_name.

(** The fallback over [name_mappings[network_name]] when the backend
    lookup is not a [Success]. *)
Definition fallback_lookup (srv : CoreDns) (name : string) : list IpAddr :=
  match name_mappings (backend srv) !! network_name srv with
  | None => []
  | Some container_mappings =>
      fold_left
        (fun resolved_ip_list '(key, value) =>
           match strip_and_dot (filter_search_domain srv) name with
           | None => resolved_ip_list
           | Some request_name =>
               match strip_and_dot (filter_search_domain srv ++ ".") request_name with
               | None => resolved_ip_list
               | Some request_name =>
                   if String.eqb (key ++ ".") request_name then value else resolved_ip_list
               end
           end)
        (map_to_list container_mappings) []
  end.

Definition resolved_ip_list (srv : CoreDns) (src_ip : IpAddr) (name : string) : list IpAddr :=
  match lookup2 (backend srv) src_ip name with
  | Success ips => ips
  | _ => fallback_lookup srv name
  end.

(** The forwarding gate: [true] when the engine answers NXDOMAIN instead
    of forwarding. *)
Definition nx_gate (no_proxy : bool) (fsd request_name : string) : bool :=
  no_proxy || Str.ends_with fsd request_name || Str.ends_with (fsd ++ ".") request_name
  || Nat.eqb (Str.count_char "."%char request_name) 1.

(** The answers of a local A or AAAA reply. *)
Definition add_addr_answers (record_type : RecordType) (record_name : string)
    (ips : list IpAddr) (req : Message) : Message :=
  match record_type with
  | A =>
      fold_left (fun m addr =>
                   match addr with
                   | V4 ipv4 => add_answer (mk_record (Some record_name) 86400 A IN (Some (RA ipv4))) m
                   | V6 _ => m
                   end) ips req
  | AAAA =>
      fold_left (fun m addr =>
                   match addr with
                   | V6 ipv6 => add_answer (mk_record (Some record_name) 86400 AAAA IN (Some (RAAAA ipv6))) m
                   | V4 _ => m
                   end) ips req
  | _ => req
  end.

Section Handler.

(** [Name::from_str_relaxed(s).is_ok()] and [Name::from_ascii(s).is_ok()]. *)
Variable from_str_relaxed_ok : string -> bool.
Variable from_ascii_ok : string -> bool.
(** [msg.to_vec().is_ok()]: whether the message serializes. *)
Variable to_vec_ok : Message -> bool.

(** The message [reply] sends. *)
Definition response_of (msg : Message) : Message :=
  let msg_mut := set_message_type Response msg in
  if recursion_desired msg && negb (recursion_available msg)
  then set_recursion_available true msg_mut
  else msg_mut.

(** [reply(sender, socket_addr, msg)]: [None] when the message does not
    serialize; a failed [send] is only logged. *)
Definition reply (socket_addr : SocketAddr) (msg : Message) : option unit * list Event :=
  let msg_mut := response_of msg in
  if to_vec_ok msg_mut then (Some tt, [Reply socket_addr msg_mut]) else (None, []).

(** The PTR answers added to [req.clone()]. *)
Definition add_ptr_answers (reverse_lookup : list string) (req : Message) : Message :=
  fold_left (fun req_clone entry =>
               if from_ascii_ok (entry ++ ".")
               then add_answer (mk_record None 86400 PTR IN (Some (RPTR (entry ++ ".")))) req_clone
               else req_clone) reverse_lookup req.

(** The PTR branch of the handler. *)
Definition ptr_events (srv : CoreDns) (src_address : SocketAddr) (req : Message)
    (name : string) : list Event :=
  match IpParse.parse_ip (ptr_lookup_ip name) with
  | None => []
  | Some lookup_ip =>
      match reverse_lookup (backend srv) (sock_ip src_address) lookup_ip with
      | None => []
      | Some names => snd (reply src_address (add_ptr_answers names req))
      end
  end.

(** The handler after the PTR branch: forward lookup, local answer,
    NXDOMAIN or forwarding. *)
Definition handle_after_ptr (no_proxy : bool) (srv : CoreDns) (src_address : SocketAddr)
    (req : Message) (name : string) (record_type : RecordType)
    (nameservers : list IpAddr) : list Event :=
  let ips := resolved_ip_list srv (sock_ip src_address) name in
  if negb (from_str_relaxed_ok name) then [] else
  let record_name := name in
  match ips with
  | _ :: _ => snd (reply src_address (add_addr_answers record_type record_name ips req))
  | [] =>
      if nx_gate no_proxy (filter_search_domain srv) name
      then snd (reply src_address (set_response_code NXDomain req))
      else [Forward src_address nameservers req]
  end.

(** One received and decoded message of the [register_port] loop. *)
Definition handle (no_proxy : bool) (srv : CoreDns) (src_address : SocketAddr)
    (req : Message) : list Event :=
  let '(name, record_type) := parse_dns_msg req in
  let nameservers := dns_resolver_nameservers srv (sock_ip src_address) in
  let ptr := match record_type with
             | PTR => ptr_events srv src_address req name
             | _ => []
             end in
  (ptr ++ handle_after_ptr no_proxy srv src_address req name record_type nameservers)%list.

(** The spawned forwarding task. *)
Section Forward.
(** [AsyncClient::connect] to the nameserver on port 53 succeeds. *)
Variable connect_ok : IpAddr -> bool.
(** [cl.send(req).try_next()]: [Ok(Some response)] as [Some response]. *)
Variable upstream : IpAddr -> Message -> option Message.

Definition forward_dns_req (nameserver : IpAddr) (message : Message) : option Message :=
  let i := id message in
  match upstream nameserver message with
  | Some response => Some (set_id i response)
  | None => None
  end.

Fixpoint forward_task (src_address : SocketAddr) (nameservers : list IpAddr)
    (req : Message) : list Event :=
  match nameservers with
  | [] => []
  | nameserver :: rest =>
      if connect_ok nameserver then
        match forward_dns_req nameserver req with
        | Some resp =>
            let '(r, ev) := reply src_address resp in
            match r with
            | Some _ => ev
            | None => (ev ++ forward_task src_address rest req)%list
            end
        | None => forward_task src_address rest req
        end
      else forward_task src_address rest req
  end.


End Forward.
End Handler.

Definition is_forward (e : Event) : bool :=
  match e with Forward _ _ _ => true | Reply _ _ => false end.

End Engine.

(** A backend for the engine: container [a] at 10.88.0.4 on the
    non-internal network [podman], with its reverse entry, queried from
    10.88.0.2. *)
Module EngineFixtures.
Import Fixtures Engine.

Definition engine_backend : Backend.DNSBackend :=
  Backend.new {[ ip4 10 88 0 2 := ["podman"]; ip4 10 88 0 4 := ["podman"] ]}
              {[ "podman" := {[ "a" := [ip4 10 88 0 4] ]} ]}
              {[ "podman" := {[ ip4 10 88 0 4 := ["a"] ]} ]}
              ∅ ∅ {[ "podman" := false ]} ".dns.podman".

Definition engine_srv : CoreDns :=
  {| network_name := "podman"; backend := engine_backend;
     filter_search_domain := "dns.podman"; resolv_conf := [ip4 1 1 1 1] |}.

(** The client 10.88.0.2, port 40000. *)
Definition client : SocketAddr := SockV4 ((((10 * 256 + 88) * 256 + 0) * 256 + 2)%N) 40000.

Definition query (i : N) (name : string) (t : RecordType) : Message :=
  {| id := i; message_type := Query; recursion_desired := true; recursion_available := false;
     response_code := NoError; queries := [{| qname := name; query_type := t |}];
     answers := [] |}.




End EngineFixtures.

(* ===================================================================== *)
(** ** Configuration reload ([read_config_and_spawn], server/serve.rs) *)
(* ===================================================================== *)

Module Serve.
Import Config ConfigWalk Reconcile.

(** [get_upstream_resolvers]: [File::open(RESOLV_CONF)] and
    [read_to_string] (outer and inner result), then [parse_resolv_conf]. *)
Definition get_upstream_resolvers (if_nametoindex : string -> option N)
    (resolv_file : result (result string IoErrorKind) IoErrorKind)
  : result (list SocketAddr) AardvarkError :=
  let? f := wrap "open resolv.conf"
              (match resolv_file with Ok f => Ok f | Err k => Err (IOError k) end) in
  let? buf := wrap "read resolv.conf"
                (match f with Ok s => Ok s | Err k => Err (IOError k) end) in
  Resolv.parse_resolv_conf if_nametoindex buf.

(** The server state a reload reads and writes: the two listener
    registries, the shared host nameserver list, the backend stored in
    the [ArcSwap] and whether the PID file was removed. *)
Record World := {
  handles_v4 : RState N;
  handles_v6 : RState N;
  nameservers : list SocketAddr;
  backend : option Backend.DNSBackend;
  pid_removed : bool
}.

(** How a reload ends: returning a result, or [process::exit(code)]. *)
Inductive Outcome := Returned (r : result unit AardvarkError) | Exited (code : nat).

(** The effects of the environment a reload consults. *)
Record Env := {
  if_nametoindex : string -> option N;
  addr4 : N -> N -> string;
  addr6 : N -> N -> string;
  udp4 : N -> N -> option IoErrorKind;
  tcp4 : N -> N -> option IoErrorKind;
  udp6 : N -> N -> option IoErrorKind;
  tcp6 : N -> N -> option IoErrorKind;
  (** [fs::remove_file] of the PID file: [None] on success *)
  remove_pid : option IoErrorKind;
  resolv_file : result (result string IoErrorKind) IoErrorKind
}.

Definition set_handles (w : World) (h4 h6 : RState N) : World :=
  {| handles_v4 := h4; handles_v6 := h6; nameservers := nameservers w;
     backend := backend w; pid_removed := pid_removed w |}.

Definition set_nameservers (w : World) (ns : list SocketAddr) : World :=
  {| handles_v4 := handles_v4 w; handles_v6 := handles_v6 w; nameservers := ns;
     backend := backend w; pid_removed := pid_removed w |}.

Definition set_backend (w : World) (b : Backend.DNSBackend) : World :=
  {| handles_v4 := handles_v4 w; handles_v6 := handles_v6 w; nameservers := nameservers w;
     backend := Some b; pid_removed := pid_removed w |}.

Definition set_pid_removed (w : World) : World :=
  {| handles_v4 := handles_v4 w; handles_v6 := handles_v6 w; nameservers := nameservers w;
     backend := backend w; pid_removed := true |}.

(** [read_config_and_spawn]; [None] when a registry [unwrap] panics. *)
Definition read_config_and_spawn (env : Env) (dir : ConfigDir) (port : N)
    (filter_search_domain : string) (w : World) : option (Outcome * World) :=
  match wrap "unable to parse config" (parse_configs dir filter_search_domain) with
  | Err e => Some (Returned (Err e), w)
  | Ok (conf, listen_ip_v4, listen_ip_v6) =>
      let w := set_backend w conf in
      if bool_decide (listen_ip_v4 = ∅) && bool_decide (listen_ip_v6 = ∅) then
        match remove_pid env with
        | Some _ => Some (Exited 1, w)
        | None =>
            let w := set_pid_removed w in
            match stop_threads (handles_v4 w) None with
            | None => None
            | Some h4 =>
                match stop_threads (handles_v6 w) None with
                | None => None
                | Some h6 => Some (Exited 0, set_handles w h4 h6)
                end
            end
        end
      else
        let '(errors, upstream_resolvers) :=
          match get_upstream_resolvers (if_nametoindex env) (resolv_file env) with
          | Ok ns => ([], ns)
          | Err err =>
              ([Chain "failed to get upstream nameservers, dns forwarding will not work" err], [])
          end in
        let w := set_nameservers w upstream_resolvers in
        match stop_and_start_threads (addr4 env) (udp4 env) (tcp4 env) port listen_ip_v4
                (handles_v4 w) with
        | None => None
        | Some (r4, h4) =>
            match stop_and_start_threads (addr6 env) (udp6 env) (tcp6 env) port listen_ip_v6
                    (handles_v6 w) with
            | None => None
            | Some (r6, h6) =>
                let errors := (errors ++ match r4 with Ok _ => [] | Err e => [e] end
                                      ++ match r6 with Ok _ => [] | Err e => [e] end)%list in
                Some (Returned (match errors with [] => Ok tt | _ => Err (List errors) end),
                      set_handles w h4 h6)
            end
        end
  end.

End Serve.

Module ServeFixtures.
Import Config ConfigWalk Reconcile Serve.

Definition empty_registry : RState N :=
  {| thread_handles := ∅; next_task := 0; log := [] |}.

Definition start_world : World :=
  {| handles_v4 := empty_registry; handles_v6 := empty_registry; nameservers := [];
     backend := None; pid_removed := false |}.

(** Every bind, the PID file removal and resolv.conf succeed. *)
Definition good_env : Env :=
  {| if_nametoindex := fun _ => None;
     addr4 := fun _ _ => ""; addr6 := fun _ _ => "";
     udp4 := fun _ _ => None; tcp4 := fun _ _ => None;
     udp6 := fun _ _ => None; tcp6 := fun _ _ => None;
     remove_pid := None;
     resolv_file := Ok (Ok "nameserver 1.1.1.1
") |}.

Definition default_backend : Backend.DNSBackend := Backend.new ∅ ∅ ∅ ∅ ∅ ∅ "".

(** What [parse_configs] gives for the directory [good_and_broken]. *)
Definition reload_parsed :=
  Eval vm_compute in parse_configs ConfigFixtures.good_and_broken "dns.podman".

Definition reload_conf : Backend.DNSBackend :=
  match reload_parsed with Ok (c, _, _) => c | Err _ => default_backend end.
Definition reload_l4 : gmap string (list N) :=
  match reload_parsed with Ok (_, l, _) => l | Err _ => ∅ end.
Definition reload_l6 : gmap string (list N) :=
  match reload_parsed with Ok (_, _, l) => l | Err _ => ∅ end.


End ServeFixtures.

(* ===================================================================== *)
(** * Properties *)
(* ===================================================================== *)

Example parse_ip_v4 : IpParse.parse_ip "10.88.0.4" = Some (V4 173539332).
Proof. reflexivity. Qed.
Example parse_ip_v4_bad : IpParse.parse_ip "10.88.0.256" = None.
Proof. reflexivity. Qed.
Example parse_ip_v4_lead0 : IpParse.parse_ip "10.088.0.1" = None.
Proof. reflexivity. Qed.
Example parse_ip_v6_short : IpParse.parse_ip "fe80::1" = Some (V6 (0xfe80 * 2^112 + 1)).
Proof. vm_compute. reflexivity. Qed.
Example parse_ip_v6_full :
  IpParse.parse_ip "fdfd:733b:dc3:220b::2" =
  Some (V6 (IpParse.groups_value [0xfdfd; 0x733b; 0xdc3; 0x220b; 0; 0; 0; 2]%N)).
Proof. reflexivity. Qed.
Example parse_ip_v6_v4 :
  IpParse.parse_ip "::ffff:1.2.3.4" =
  Some (V6 (IpParse.groups_value [0; 0; 0; 0; 0; 0xffff; 0x0102; 0x0304]%N)).
Proof. reflexivity. Qed.
Example parse_ip_abc : IpParse.parse_ip "abc" = None.
Proof. reflexivity. Qed.
Example parse_ip_hex_word : IpParse.parse_ip "abc::" <> None.
Proof. discriminate. Qed.

Example resolv_three :
  Resolv.parse_resolv_conf no_ifaces
    "nameserver 1.1.1.1
nameserver 1.1.1.2
nameserver 1.1.1.3
nameserver 1.1.1.4"
  = Ok [SockV4 16843009 53; SockV4 16843010 53; SockV4 16843011 53].
Proof. reflexivity. Qed.
Example resolv_comment :
  Resolv.parse_resolv_conf no_ifaces "# x
  nameserver 1.1.1.1 # space
nameserver 1.1.1.2#nospace
abc" = Ok [SockV4 16843009 53; SockV4 16843010 53].
Proof. reflexivity. Qed.
Example resolv_lo :
  Resolv.parse_resolv_conf lo_only "nameserver fe80::1%lo"
  = Ok [SockV6 (0xfe80 * 2^112 + 1) 53 0 1].
Proof. vm_compute. reflexivity. Qed.
Example resolv_bad :
  is_ok (Resolv.parse_resolv_conf no_ifaces "nameserver abc") = false.
Proof. reflexivity. Qed.

(* --------------------------------------------------------------------- *)
(** ** Resolver-file reader *)
(* --------------------------------------------------------------------- *)

Module ResolvProps.
Import Resolv.

Lemma bind_res_assoc {A B C E} (r : result A E) (f : A -> result B E) (g : B -> result C E) :
  bind_res (bind_res r f) g = bind_res r (fun a => bind_res (f a) g).
Proof. by destruct r. Qed.

(** The line loop is a map over the [nameserver] arguments that stops at
    the first error. *)
Lemma parse_lines_map ifx lines acc :
  parse_lines ifx lines acc =
  (let? l := map_res (nameserver_addr ifx) (omap line_nameserver_arg lines) in
   Ok (acc ++ l)%list).
Proof.
  revert acc. induction lines as [|line lines IH]; intros acc; simpl.
  - by rewrite app_nil_r.
  - unfold line_nameserver_arg.
    destruct (Str.split_whitespace _) as [|first [|ip parts]] eqn:Hws; simpl.
    + apply IH.
    + destruct (String.eqb first "nameserver"); apply IH.
    + destruct (String.eqb first "nameserver"); [|apply IH]. simpl.
      destruct (nameserver_addr ifx ip) as [a|e]; simpl; [|done].
      rewrite IH. destruct (map_res _ _) as [l|e]; simpl; [|done].
      by rewrite <- app_assoc.
Qed.

Lemma nameserver_addr_port ifx ip a :
  nameserver_addr ifx ip = Ok a -> sock_port a = DNS_PORT.
Proof.
  unfold nameserver_addr.
  destruct (Str.split_once _ ip) as [[ip' sc]|]; simpl.
  - destruct (IpParse.parse_u32 sc); simpl.
    + destruct (IpParse.parse_ip ip') as [[]|]; simpl; intros H; inversion H; done.
    + destruct (ifx sc); simpl; [|discriminate].
      destruct (IpParse.parse_ip ip') as [[]|]; simpl; intros H; inversion H; done.
  - destruct (IpParse.parse_ip ip) as [[]|]; simpl; intros H; inversion H; done.
Qed.

(** C6 *)
(** For every resolver-file content, [parse_resolv_conf] yields the
    endpoints of the [nameserver] entries in file order, cut to the first
    three; each endpoint it builds is on port 53. *)
Theorem parse_resolv_conf_first_three (ifx : string -> option N) (content : string) :
  parse_resolv_conf ifx content =
    (let? all := map_res (nameserver_addr ifx) (nameserver_args content) in
     Ok (firstn 3 all))
  /\ Forall (fun r => match r with Ok a => sock_port a = 53%N | Err _ => True end)
            (map (nameserver_addr ifx) (nameserver_args content)).
Proof.
  split.
  - unfold parse_resolv_conf, nameserver_args. rewrite parse_lines_map.
    by destruct (map_res _ _).
  - apply Forall_forall. intros r Hr. apply list_elem_of_In, in_map_iff in Hr as [t [<- _]].
    destruct (nameserver_addr ifx t) eqn:E; [|done].
    by apply nameserver_addr_port in E.
Qed.

Lemma map_res_err {A B E} (f : A -> result B E) l x e :
  In x l -> f x = Err e -> exists e', map_res f l = Err e'.
Proof.
  induction l as [|y l IH]; simpl; [done|]. intros [->|Hin] Hf.
  - rewrite Hf. simpl. eauto.
  - destruct (f y); simpl; [|eauto].
    destruct (IH Hin Hf) as [e' ->]. simpl. eauto.
Qed.

Lemma nameserver_addr_err ifx t :
  (IpParse.parse_ip (fst (scope_split t)) = None
   \/ (exists sc, snd (scope_split t) = Some sc /\ IpParse.parse_u32 sc = None /\ ifx sc = None)
   \/ (exists sc a, snd (scope_split t) = Some sc /\ IpParse.parse_ip (fst (scope_split t)) = Some (V4 a))) ->
  exists e, nameserver_addr ifx t = Err e.
Proof.
  unfold scope_split, nameserver_addr.
  destruct (Str.split_once _ t) as [[ip sc]|]; simpl.
  - intros [Hip|[[sc' [[= <-] [Hu Hi]]]|[sc' [a [[= <-] Hip]]]]].
    + destruct (IpParse.parse_u32 sc); simpl.
      * rewrite Hip. simpl. eauto.
      * destruct (ifx sc); simpl; [|eauto]. rewrite Hip. simpl. eauto.
    + rewrite Hu, Hi. simpl. eauto.
    + destruct (IpParse.parse_u32 sc); simpl.
      * rewrite Hip. simpl. eauto.
      * destruct (ifx sc); simpl; [|eauto]. rewrite Hip. simpl. eauto.
  - intros [Hip|[[sc' [[=] _]]|[sc' [a [[=] _]]]]].
    rewrite Hip. simpl. eauto.
Qed.

(** C10 *)
(** If one [nameserver] line carries an address that does not parse, a
    scope name that is neither a number nor a known interface, or a scope
    on an IPv4 address, [parse_resolv_conf] returns an error and no list,
    whatever the earlier lines gave. *)
Theorem parse_resolv_conf_entry_error (ifx : string -> option N) (content t : string) :
  In t (nameserver_args content) ->
  (IpParse.parse_ip (fst (scope_split t)) = None
   \/ (exists sc, snd (scope_split t) = Some sc /\ IpParse.parse_u32 sc = None /\ ifx sc = None)
   \/ (exists sc a, snd (scope_split t) = Some sc /\ IpParse.parse_ip (fst (scope_split t)) = Some (V4 a))) ->
  exists e, parse_resolv_conf ifx content = Err e.
Proof.
  intros Hin Hc. destruct (nameserver_addr_err ifx t Hc) as [e He].
  destruct (map_res_err _ _ _ _ Hin He) as [e' He'].
  destruct (parse_resolv_conf_first_three ifx content) as [-> _].
  rewrite He'. simpl. eauto.
Qed.

(** A file whose first line is accepted and whose second is not. *)
Lemma parse_resolv_conf_entry_error_witness :
  In "abc" (nameserver_args "nameserver 1.1.1.1
nameserver abc")
  /\ exists e, parse_resolv_conf no_ifaces "nameserver 1.1.1.1
nameserver abc" = Err e.
Proof.
  split; [vm_compute; tauto|].
  apply (parse_resolv_conf_entry_error no_ifaces _ "abc").
  - vm_compute. tauto.
  - left. reflexivity.
Defined.

End ResolvProps.

(* --------------------------------------------------------------------- *)
(** ** String lemmas *)
(* --------------------------------------------------------------------- *)

Module StrProps.

Lemma app_cons x a b : String x a ++ b = String x (a ++ b).
Proof. reflexivity. Qed.

Lemma app_nil b : "" ++ b = b.
Proof. reflexivity. Qed.

Lemma to_lowercase_app a b :
  Str.to_lowercase (a ++ b) = Str.to_lowercase a ++ Str.to_lowercase b.
Proof. induction a as [|c a IH]; simpl; [done|by rewrite IH]. Qed.

Lemma ends_with_unfold suf s :
  Str.ends_with suf s =
  String.eqb s suf || match s with EmptyString => false | String _ s' => Str.ends_with suf s' end.
Proof. by destruct s. Qed.

Lemma ends_with_spec suf s :
  Str.ends_with suf s = true <-> exists p, s = p ++ suf.
Proof.
  split.
  - induction s as [|c s IH]; rewrite ends_with_unfold.
    + destruct (String.eqb_spec "" suf) as [<-|Hne]; simpl; intros H; [by exists ""|done].
    + destruct (String.eqb_spec (String c s) suf) as [<-|Hne]; simpl; intros H;
        [by exists ""|].
      destruct (IH H) as [p ->]. by exists (String c p).
  - intros [p ->]. induction p as [|c p IH]; rewrite ends_with_unfold.
    + by rewrite String.eqb_refl.
    + simpl. by rewrite IH, orb_true_r.
Qed.

Lemma length_app a b : String.length (a ++ b) = String.length a + String.length b.
Proof. induction a as [|c a IH]; simpl; auto. Qed.

Lemma truncate_app p q :
  Str.truncate (String.length (p ++ q) - String.length q) (p ++ q) = p.
Proof.
  rewrite length_app. replace (String.length p + String.length q - String.length q)
    with (String.length p) by lia.
  unfold Str.truncate. induction p as [|c p IH]; simpl; [by destruct q|].
  by rewrite IH.
Qed.

Lemma string_app_assoc a b c : a ++ (b ++ c) = (a ++ b) ++ c.
Proof. induction a as [|x a IH]; rewrite ?app_cons, ?app_nil; [done|by rewrite IH]. Qed.

Lemma string_app_nil_r a : a ++ "" = a.
Proof. induction a as [|x a IH]; rewrite ?app_cons; [done|by rewrite IH]. Qed.

Lemma string_app_inj_r a b c : a ++ c = b ++ c -> a = b.
Proof.
  intros H.
  assert (Hl : String.length a = String.length b).
  { apply (f_equal String.length) in H. rewrite !length_app in H. lia. }
  revert b H Hl. induction a as [|x a IH]; intros [|y b]; simpl; intros H Hl; try done.
  injection H as -> H. f_equal. apply IH; [done|lia].
Qed.

End StrProps.

(* --------------------------------------------------------------------- *)
(** ** Backend forward lookup *)
(* --------------------------------------------------------------------- *)

Module BackendProps.
Import Backend StrProps.

Lemma truncate_full s : Str.truncate (String.length s - 0) s = s.
Proof.
  rewrite Nat.sub_0_r. unfold Str.truncate.
  induction s as [|c s IH]; simpl; [done|by rewrite IH].
Qed.

Lemma last_char_spec s :
  (last_char s = None /\ s = "") \/ exists p c, last_char s = Some c /\ s = p ++ String c "".
Proof.
  induction s as [|c s IH]; [by left|right].
  destruct IH as [[Hn ->]|[p [c' [Hl ->]]]].
  - exists "", c. done.
  - exists (String c p), c'. split; [|done].
    simpl. by destruct p.
Qed.

Lemma new_search_domain c n r cd nd ni sd :
  search_domain (new c n r cd nd ni sd) = "" \/
  exists p, search_domain (new c n r cd nd ni sd) = p ++ ".".
Proof.
  unfold new; simpl.
  destruct (last_char_spec sd) as [[-> ->]|[p [c' [-> ->]]]]; [by left|right].
  destruct (Ascii.eqb_spec c' ".") as [->|_]; by eexists.
Qed.

Lemma ends_with_dot_of_sd p y :
  Str.ends_with (p ++ ".") y = true -> Str.ends_with "." y = true.
Proof.
  intros [q ->]%ends_with_spec. apply ends_with_spec.
  exists (q ++ p). by rewrite string_app_assoc.
Qed.

Lemma lookup_name_dot b x :
  (search_domain b = "" \/ exists p, search_domain b = p ++ ".") ->
  Str.ends_with "." (Str.to_lowercase x) = false ->
  (Str.ends_with (search_domain b) (Str.to_lowercase x ++ ".") = false \/ search_domain b = "") ->
  lookup_name b (x ++ ".") = lookup_name b x.
Proof.
  intros Hsd Hx Hsx. unfold lookup_name.
  rewrite to_lowercase_app. change (Str.to_lowercase ".") with ".".
  set (y := Str.to_lowercase x) in *.
  assert (Hyd : Str.ends_with "." (y ++ ".") = true) by (apply ends_with_spec; by exists y).
  destruct Hsx as [Hsx|Hsx].
  - rewrite Hsx, Hyd.
    destruct Hsd as [Hsd|[p Hsd]].
    + exfalso. rewrite Hsd in Hsx. assert (Str.ends_with "" (y ++ ".") = true)
        by (apply ends_with_spec; exists (y ++ "."); by rewrite string_app_nil_r).
      congruence.
    + rewrite Hsd. destruct (Str.ends_with (p ++ ".") y) eqn:E.
      * apply ends_with_dot_of_sd in E. congruence.
      * rewrite Hx. apply (truncate_app y ".").
  - rewrite Hsx.
    assert (He : forall s, Str.ends_with "" s = true)
      by (intros s; apply ends_with_spec; exists s; by rewrite string_app_nil_r).
    rewrite !He, !truncate_full, Hyd, Hx. apply (truncate_app y ".").
Qed.

End BackendProps.

Module LookupClaims.
Import Backend BackendProps Fixtures.

Example lookup_backend_a : lookup lookup_backend (ip4 10 88 0 2) "podman" "A." = Some [ip4 10 88 0 4].
Proof. reflexivity. Qed.

(** C8 (counterexample) *)
(** Forward lookup of [a.dns.podman.] finds the container [a] (the search
    domain [.dns.podman.] is stripped), while [a.dns.podman] without the
    dot is looked up as the key [a.dns.podman] and finds nothing. *)
Lemma lookup_trailing_dot_counterexample :
  lookup lookup_backend (ip4 10 88 0 2) "podman" ("a.dns.podman" ++ ".")
  <> lookup lookup_backend (ip4 10 88 0 2) "podman" "a.dns.podman".
Proof. vm_compute. discriminate. Qed.

(** C8 (amended) *)
(** For a backend built by [DNSBackend::new], Forward lookup of [x ++ "."]
    equals Forward lookup of [x] whenever the lowercased [x] does not already
    end with a dot and, unless the search domain is empty, the lowercased
    [x ++ "."] does not end with the search domain. *)
Theorem lookup_trailing_dot (c : gmap IpAddr (list string))
    (n : gmap string (gmap string (list IpAddr))) (r : gmap string (gmap IpAddr (list string)))
    (cd : gmap IpAddr (option (list IpAddr))) (nd : gmap string (list IpAddr))
    (ni : gmap string bool) (sd : string) (requester : IpAddr) (net x : string) :
  Str.ends_with "." (Str.to_lowercase x) = false ->
  (Str.ends_with (search_domain (new c n r cd nd ni sd)) (Str.to_lowercase x ++ ".") = false
   \/ search_domain (new c n r cd nd ni sd) = "") ->
  lookup (new c n r cd nd ni sd) requester net (x ++ ".")
  = lookup (new c n r cd nd ni sd) requester net x.
Proof.
  intros Hx Hsx. unfold lookup.
  rewrite (lookup_name_dot _ x (new_search_domain c n r cd nd ni sd) Hx Hsx).
  reflexivity.
Qed.

Lemma lookup_trailing_dot_witness :
  (Str.ends_with "." (Str.to_lowercase "A") = false
   /\ (Str.ends_with (search_domain lookup_backend) (Str.to_lowercase "A" ++ ".") = false
       \/ search_domain lookup_backend = ""))
  /\ lookup lookup_backend (ip4 10 88 0 2) "podman" ("A" ++ ".")
     = lookup lookup_backend (ip4 10 88 0 2) "podman" "A".
Proof.
  split; [split; [reflexivity|left; reflexivity]|].
  apply lookup_trailing_dot; [reflexivity|left; reflexivity].
Defined.

End LookupClaims.

Module ConfigExamples.
Import Config ConfigWalk ConfigFixtures Fixtures.

Example podman_lookup :
  match parse_configs (dir_of [Entry (Some "podman") (Ok podman_file)]) ".dns.podman" with
  | Ok (b, _, _) => Backend.lookup b (ip4 10 88 0 2) "podman" "HELLOWORLD"
  | Err _ => None
  end = Some [ip4 10 88 0 5].
Proof. vm_compute. reflexivity. Qed.

Example podman_reverse :
  match parse_configs (dir_of [Entry (Some "podman") (Ok podman_file)]) ".dns.podman" with
  | Ok (b, _, _) => Backend.reverse_lookup b (ip4 10 88 0 2) (ip4 10 88 0 4)
  | Err _ => None
  end = Some ["trustingzhukovsky"; "ctr1"; "ctra"].
Proof. vm_compute. reflexivity. Qed.

Example broken_rejected : is_ok (parse_config (Ok broken_file)) = false.
Proof. reflexivity. Qed.

End ConfigExamples.

(* --------------------------------------------------------------------- *)
(** ** Configuration parser: skipping of failed files *)
(* --------------------------------------------------------------------- *)

Module ConfigSkip.
Import Config ConfigWalk ConfigFixtures.

Lemma entry_step_skip st e :
  (match e with EntryErr _ => True | Entry _ file => exists err, parse_config file = Err err end) ->
  entry_step st e = Ok st.
Proof.
  destruct e as [k|fname file]; simpl; [done|].
  intros [err Herr]. case_bool_decide; [done|]. by rewrite Herr.
Qed.

Lemma walk_skip l1 e l2 :
  (match e with EntryErr _ => True | Entry _ file => exists err, parse_config file = Err err end) ->
  walk (l1 ++ e :: l2) = walk (l1 ++ l2).
Proof.
  intros He. unfold walk. rewrite !fold_left_app. simpl. f_equal.
  destruct (fold_left _ l1 _) as [st|err]; simpl; [|done].
  by rewrite entry_step_skip.
Qed.

(** C3 (counterexample) *)
(** A directory with a well-formed file [podman] and a file [broken]
    whose container line has only three fields: [parse_configs] succeeds. *)
Lemma parse_configs_structural_error_counterexample :
  is_ok (parse_config (Ok broken_file)) = false /\
  is_ok (parse_configs good_and_broken ".dns.podman") = true.
Proof. split; vm_compute; reflexivity. Qed.

(** C3 (amended) *)
(** A directory entry that cannot be listed, and a file that cannot be
    read or whose content [parse_config] rejects (a structural error such
    as a short container line or a bad address included), are skipped:
    [parse_configs] gives the same result as without that entry. *)
Theorem parse_configs_skips_failed_file (dir : ConfigDir) (fsd : string)
    (l1 l2 : list DirEntry) (e : DirEntry) :
  dir_entries dir = Ok (l1 ++ e :: l2)%list ->
  (match e with EntryErr _ => True | Entry _ file => exists err, parse_config file = Err err end) ->
  parse_configs dir fsd
  = parse_configs {| dir_is_dir := dir_is_dir dir; dir_entries := Ok (l1 ++ l2)%list |} fsd.
Proof.
  intros Hd He. unfold parse_configs. simpl. rewrite Hd.
  destruct (dir_is_dir dir) as [[]|k]; simpl; [|done|done].
  by rewrite walk_skip.
Qed.

Lemma parse_configs_skips_failed_file_witness :
  parse_configs good_and_broken ".dns.podman"
  = parse_configs (dir_of [Entry (Some "podman") (Ok podman_file)]) ".dns.podman".
Proof.
  apply (parse_configs_skips_failed_file good_and_broken ".dns.podman"
           [Entry (Some "podman") (Ok podman_file)] []
           (Entry (Some "broken") (Ok broken_file))).
  - reflexivity.
  - eexists. vm_compute. reflexivity.
Defined.

End ConfigSkip.

(* --------------------------------------------------------------------- *)
(** ** Configuration parser: internal networks *)
(* --------------------------------------------------------------------- *)

Module ConfigInternal.
Import Config ConfigWalk ConfigFixtures.

Definition wstep (acc : result ParseState AardvarkError) (e : DirEntry) :=
  let? st := acc in entry_step st e.

Lemma fold_wstep_err l err : fold_left wstep l (Err err) = Err err.
Proof. induction l; simpl; auto. Qed.

Lemma fold_wstep_pres (R : ParseState -> ParseState -> Prop) l s s' :
  (forall st, R st st) -> (forall a b c, R a b -> R b c -> R a c) ->
  (forall st st' e, In e l -> entry_step st e = Ok st' -> R st st') ->
  fold_left wstep l (Ok s) = Ok s' -> R s s'.
Proof.
  intros Hrefl Htrans. revert s. induction l as [|e l IH]; simpl; intros s Hstep Hf.
  - injection Hf as ->. apply Hrefl.
  - destruct (entry_step s e) as [s1|err] eqn:E.
    + apply (Htrans _ s1); [by eapply Hstep; eauto|].
      apply IH; [|done]. intros; eapply Hstep; eauto.
    + by rewrite fold_wstep_err in Hf.
Qed.

Lemma entry_step_cases st e st' :
  entry_step st e = Ok st' ->
  (entry_config e = None /\ st' = st) \/
  (exists net i pc, entry_config e = Some (net, i, pc) /\ st' = network_step st net i pc).
Proof.
  destruct e as [k|[name|] file]; simpl.
  - intros [= ->]. by left.
  - case_bool_decide as Hp.
    + intros [= ->]. left. injection Hp as ->. by rewrite bool_decide_eq_true_2.
    + rewrite bool_decide_eq_false_2 by congruence.
      destruct (parse_config file) as [pc|err]; [|intros [= ->]; by left].
      intros [= <-]. right. eauto.
  - destruct (parse_config file); [done|]. intros [= ->]. by left.
Qed.

Lemma ctr_steps_nds net i l st :
  network_dns_server (fold_left (ctr_step net i) l st) = network_dns_server st.
Proof.
  revert st. induction l as [|c l IH]; intros st; simpl; [done|].
  rewrite IH. unfold ctr_step. by destruct (fold_left _ _ _) as [[? ?] ?].
Qed.

Lemma network_step_nds st net i pc :
  network_dns_server (network_step st net i pc) =
  (if i then <[net := []]> else (fun m => m))
    (if negb (bool_decide (network_dnsservers pc = [])) && negb i
     then <[net := network_dnsservers pc]> (network_dns_server st)
     else network_dns_server st).
Proof.
  unfold network_step. destruct (fold_left _ _ _) as [l4 l6].
  rewrite ctr_steps_nds. simpl. by destruct i.
Qed.

Lemma ip_steps_ctr net i e l acc ip :
  (i = true \/ ~ In ip l) ->
  (fold_left (ip_step net i e) l acc).1.2 !! ip = acc.1.2 !! ip.
Proof.
  revert acc. induction l as [|x l IH]; intros [[rv cd] nw] Hi; simpl; [done|].
  rewrite IH; [|destruct Hi as [->|Hi]; [by left|right; intros ?; apply Hi; by right]].
  simpl. destruct i; [done|]. rewrite lookup_insert_ne; [done|].
  destruct Hi as [[=]|Hi]. intros ->. apply Hi. by left.
Qed.

Lemma ctr_steps_ctr net i l st ip :
  (i = true \/ ~ In ip (flat_map entry_ips l)) ->
  ctr_dns_server (fold_left (ctr_step net i) l st) !! ip = ctr_dns_server st !! ip.
Proof.
  revert st. induction l as [|c l IH]; intros st Hi; simpl; [done|].
  rewrite IH; [|destruct Hi as [->|Hi]; [by left|right; intros ?; apply Hi, in_or_app; by right]].
  unfold ctr_step.
  pose proof (ip_steps_ctr net i c (entry_ips c) (reverse st, ctr_dns_server st, []) ip) as H.
  destruct (fold_left _ _ _) as [[? ?] ?]. simpl in *. apply H.
  destruct Hi as [->|Hi]; [by left|right; intros ?; apply Hi, in_or_app; by left].
Qed.

Lemma network_step_ctr st net i pc ip :
  (i = true \/ ~ In ip (flat_map entry_ips (container_entry pc))) ->
  ctr_dns_server (network_step st net i pc) !! ip = ctr_dns_server st !! ip.
Proof.
  intros Hi. unfold network_step. destruct (fold_left _ _ _) as [l4 l6].
  by rewrite ctr_steps_ctr.
Qed.

Lemma parse_configs_ok_inv dir fsd b l4 l6 :
  parse_configs dir fsd = Ok (b, l4, l6) ->
  exists entries st, dir_entries dir = Ok entries /\ walk entries = Ok st /\
    Backend.network_dns_server b = network_dns_server st /\
    Backend.ctr_dns_server b = ctr_dns_server st.
Proof.
  unfold parse_configs.
  destruct (dir_is_dir dir) as [[]|k]; simpl; try done.
  destruct (dir_entries dir) as [entries|k]; simpl; [|done].
  destruct (walk entries) as [st|err] eqn:Hw; simpl; [|done].
  destruct (build_ctrs st) as [ctrs|err]; simpl; [|done].
  intros [= <- _ _]. exists entries, st. done.
Qed.


Lemma walk_wstep l : walk l = fold_left wstep l (Ok empty_state).
Proof. reflexivity. Qed.

Lemma walk_split l1 e l2 st :
  walk (l1 ++ e :: l2)%list = Ok st ->
  exists s1 s2, fold_left wstep l1 (Ok empty_state) = Ok s1 /\
    entry_step s1 e = Ok s2 /\ fold_left wstep l2 (Ok s2) = Ok st.
Proof.
  rewrite walk_wstep, fold_left_app. simpl.
  destruct (fold_left wstep l1 _) as [s1|err]; simpl;
    [|intros H; by rewrite fold_wstep_err in H].
  destruct (entry_step s1 e) as [s2|err] eqn:E; simpl;
    [|intros H; by rewrite fold_wstep_err in H].
  intros H. exists s1, s2. split; [reflexivity|split; [exact E|exact H]].
Qed.

(** C5 (counterexample) *)
(** With an internal file [podman%int] and a plain file [podman] that both
    list container IP 10.88.0.2, the plain file, read second, leaves
    [network_dns_server] of [podman] at its own resolver and gives
    10.88.0.2 an [ip_to_ctr_dns] entry. *)
Lemma parse_configs_internal_counterexample :
  exists b l4 l6,
    parse_configs internal_and_plain ".dns.podman" = Ok (b, l4, l6) /\
    Backend.network_dns_server b !! "podman" = Some [Fixtures.ip4 9 9 9 9] /\
    Backend.ctr_dns_server b !! Fixtures.ip4 10 88 0 2 = Some (Some [Fixtures.ip4 1 0 0 1]).
Proof. do 3 eexists. split; [vm_compute; reflexivity|]. split; vm_compute; reflexivity. Qed.

(** C5 (amended) *)
(** An internal network file that parses successfully gets the empty
    upstream list in [network_dns_server], whatever resolvers it lists, as
    long as no file read after it yields the same network name; and its
    container IPs get no [ctr_dns_server] entry as long as no other
    successfully parsed non-internal file lists the same IP. *)
Theorem parse_configs_internal_network (dir : ConfigDir) (fsd : string)
    (l1 l2 : list DirEntry) (e : DirEntry) (net : string) (pc : ParsedNetworkConfig)
    (b : Backend.DNSBackend) (l4 l6 : gmap string (list N)) :
  dir_entries dir = Ok (l1 ++ e :: l2)%list ->
  entry_config e = Some (net, true, pc) ->
  (forall e' net' i' pc', In e' l2 -> entry_config e' = Some (net', i', pc') -> net' <> net) ->
  (forall e' net' pc', In e' (l1 ++ l2)%list -> entry_config e' = Some (net', false, pc') ->
     forall ip, In ip (flat_map entry_ips (container_entry pc)) ->
                ~ In ip (flat_map entry_ips (container_entry pc'))) ->
  parse_configs dir fsd = Ok (b, l4, l6) ->
  Backend.network_dns_server b !! net = Some [] /\
  forall ip, In ip (flat_map entry_ips (container_entry pc)) ->
             Backend.ctr_dns_server b !! ip = None.
Proof.
  intros Hd He Hnet Hip Hp.
  destruct (parse_configs_ok_inv _ _ _ _ _ Hp) as (entries & st & Hd' & Hw & Hnds & Hcd).
  rewrite Hd in Hd'. injection Hd' as <-.
  destruct (walk_split _ _ _ _ Hw) as (s1 & s2 & H1 & He2 & H2).
  assert (Hs2 : s2 = network_step s1 net true pc).
  { destruct (entry_step_cases _ _ _ He2) as [[He' _]|(n' & i' & pc' & He' & ->)];
      rewrite He in He'; [done|]. by injection He' as -> -> ->. }
  subst s2. rewrite Hnds, Hcd. split.
  - rewrite (fold_wstep_pres (fun s s' => network_dns_server s' !! net = network_dns_server s !! net)
               l2 (network_step s1 net true pc) st); [| done | congruence | | done].
    + rewrite network_step_nds. apply lookup_insert_eq.
    + intros s s' e' Hin Hs.
      destruct (entry_step_cases _ _ _ Hs) as [[_ ->]|(n' & i' & pc' & Hc & ->)]; [done|].
      rewrite network_step_nds.
      pose proof (Hnet _ _ _ _ Hin Hc) as Hne.
      destruct i'; simpl.
      * rewrite lookup_insert_ne by done.
        destruct (_ && _); [by rewrite lookup_insert_ne|done].
      * destruct (_ && _); [by rewrite lookup_insert_ne|done].
  - intros ip Hin.
    set (R := fun s s' : ParseState => ctr_dns_server s' !! ip = ctr_dns_server s !! ip).
    assert (Hstep : forall l, (forall x, In x l -> In x (l1 ++ l2)%list) ->
              forall s s' e', In e' l -> entry_step s e' = Ok s' -> R s s').
    { intros l Hl s s' e' Hin' Hs. unfold R.
      destruct (entry_step_cases _ _ _ Hs) as [[_ ->]|(n' & i' & pc' & Hc & ->)]; [done|].
      apply network_step_ctr. destruct i'; [by left|right].
      eapply Hip; eauto. }
    rewrite (fold_wstep_pres R l2 (network_step s1 net true pc) st);
      [| done | unfold R; congruence | | done].
    + unfold R. rewrite network_step_ctr by (by left).
      rewrite (fold_wstep_pres R l1 empty_state s1); [done | done | unfold R; congruence | | done].
      apply Hstep. intros; apply in_or_app; by left.
    + apply Hstep. intros; apply in_or_app; by right.
Qed.

Lemma parse_configs_internal_network_witness :
  exists b l4 l6,
    parse_configs (dir_of [internal_entry]) ".dns.podman" = Ok (b, l4, l6) /\
    Backend.network_dns_server b !! "podman" = Some [] /\
    Backend.ctr_dns_server b !! Fixtures.ip4 10 88 0 2 = None.
Proof.
  destruct (parse_configs (dir_of [internal_entry]) ".dns.podman") as [[[b l4] l6]|err] eqn:Hp.
  2: { vm_compute in Hp. discriminate. }
  exists b, l4, l6. split; [reflexivity|].
  destruct (parse_configs_internal_network (dir_of [internal_entry]) ".dns.podman" [] []
              internal_entry "podman" internal_pc b l4 l6 eq_refl) as [H1 H2].
  - vm_compute. reflexivity.
  - intros ? ? ? ? [].
  - intros ? ? ? [].
  - exact Hp.
  - split; [exact H1|]. apply H2. vm_compute. tauto.
Defined.

End ConfigInternal.

(* --------------------------------------------------------------------- *)
(** ** Listener reconcile with an unchanged listen plan *)
(* --------------------------------------------------------------------- *)

Module ReconcileProps.
Import Reconcile.

Lemma filter_none {A} (P : A -> Prop) `{!forall x, Decision (P x)} (l : list A) :
  (forall x, In x l -> ~ P x) -> filter P l = [].
Proof.
  induction l as [|a l IH]; intros Hl; [done|].
  rewrite filter_cons. case_decide as Ha.
  - exfalso. apply (Hl a); [left|]; done.
  - apply IH. intros x Hx. apply Hl. by right.
Qed.

Section Props.
Context {Ip : Type} `{Countable Ip}.

Lemma stop_threads_nil (st : RState Ip) : stop_threads st (Some []) = Some st.
Proof. done. Qed.

Lemma keys_in_dom (m : gmap (string * Ip) nat) k :
  In k (map fst (map_to_list m)) -> k ∈ dom m.
Proof.
  intros Hk. apply in_map_iff in Hk as [[k' v] [<- Hin]].
  apply elem_of_dom. exists v. apply elem_of_map_to_list. by apply list_elem_of_In.
Qed.

End Props.

(** Claim C7: when the listen plan produced by a reload is the set of
    listener identities already in both registries, the two reconcile
    calls stop no listener task and start none: they report no error and
    leave both registries, their task counters and their logs unchanged. *)
Theorem stop_and_start_same_plan addr4 addr6 udp4 tcp4 udp6 tcp6 port
    listen_ip_v4 listen_ip_v6 (handles_v4 handles_v6 : RState N) :
  expected_threads listen_ip_v4 = dom (thread_handles handles_v4) ->
  expected_threads listen_ip_v6 = dom (thread_handles handles_v6) ->
  stop_and_start_both addr4 addr6 udp4 tcp4 udp6 tcp6 port
    listen_ip_v4 listen_ip_v6 handles_v4 handles_v6
  = Some ([], handles_v4, handles_v6).
Proof.
  assert (Hone : forall (f : N -> N -> string) (u t : N -> N -> option IoErrorKind)
                        (plan : gmap string (list N)) (st : RState N),
             expected_threads plan = dom (thread_handles st) ->
             stop_and_start_threads f u t port plan st = Some (Ok tt, st)).
  { intros f u t plan st Hplan. unfold stop_and_start_threads.
    rewrite Hplan.
    rewrite (filter_none _ (map fst (map_to_list (thread_handles st)))).
    2:{ intros k Hk Hn. apply Hn. by apply keys_in_dom. }
    rewrite stop_threads_nil.
    rewrite (filter_none _ (elements (dom (thread_handles st)))); [done|].
    intros k Hk Hn. apply list_elem_of_In, elem_of_elements, elem_of_dom in Hk.
    rewrite Hn in Hk. by destruct Hk. }
  intros H4 H6. unfold stop_and_start_both.
  by rewrite (Hone _ _ _ _ _ H4), (Hone _ _ _ _ _ H6).
Qed.


(* 173539329 is the IPv4 address 10.88.0.1. *)
Lemma stop_and_start_same_plan_witness :
  let plan4 : gmap string (list N) := {[ "podman" := [173539329%N] ]} in
  let st4 : RState N := {| thread_handles := {[ ("podman", 173539329%N) := 0%nat ]};
                           next_task := 1; log := [] |} in
  let st6 : RState N := {| thread_handles := ∅; next_task := 0; log := [] |} in
  stop_and_start_both (fun _ _ => "") (fun _ _ => "")
    (fun _ _ => None) (fun _ _ => None) (fun _ _ => None) (fun _ _ => None) 53
    plan4 ∅ st4 st6
  = Some ([], st4, st6).
Proof.
  intros plan4 st4 st6.
  apply stop_and_start_same_plan; vm_compute; reflexivity.
Defined.

End ReconcileProps.

(* --------------------------------------------------------------------- *)
(** ** DNS engine: replies, answers and the forwarding gate *)
(* --------------------------------------------------------------------- *)

Module EngineProps.
Import Backend Engine EngineFixtures.
















Lemma reply_no_forward_b tvo to m : existsb is_forward (snd (reply tvo to m)) = false.
Proof. unfold reply. by destruct (tvo (response_of m)). Qed.

Lemma ptr_part_no_forward fao tvo srv src req name rt :
  existsb is_forward (match rt with
                      | PTR => ptr_events fao tvo srv src req name
                      | _ => []
                      end) = false.
Proof.
  destruct rt; try done. unfold ptr_events.
  destruct (IpParse.parse_ip _) as [lip|]; [|done].
  destruct (reverse_lookup _ _ _) as [names|]; [|done].
  apply reply_no_forward_b.
Qed.

(** Claim C1 (amended): for a query that gets no local answer (its name
    parses as a record name, and neither the backend lookup nor the
    fallback over the listener's network finds an address) from a
    requester that is not internal per the backend, the engine spawns
    forwarding iff no_proxy is unset, the name ends neither with the
    filter search domain nor with it followed by a dot, and the name does
    not contain exactly one dot; when it does not forward it replies
    NXDOMAIN (if the reply serializes). *)
Theorem forwarding_gate fso fao tvo no_proxy srv src req name rt :
  parse_dns_msg req = (name, rt) ->
  fso name = true ->
  resolved_ip_list srv (sock_ip src) name = [] ->
  ctr_is_internal (backend srv) (sock_ip src) = false ->
  (existsb is_forward (handle fso fao tvo no_proxy srv src req) = true <->
     no_proxy = false /\ Str.ends_with (filter_search_domain srv) name = false /\
     Str.ends_with (filter_search_domain srv ++ ".") name = false /\
     Str.count_char "."%char name <> 1%nat) /\
  (existsb is_forward (handle fso fao tvo no_proxy srv src req) = false ->
     tvo (response_of (set_response_code NXDomain req)) = true ->
     In (Reply src (response_of (set_response_code NXDomain req)))
        (handle fso fao tvo no_proxy srv src req)).
Proof.
  intros Hp Hf Hr _. unfold handle. rewrite Hp. simpl.
  rewrite existsb_app, ptr_part_no_forward. simpl.
  unfold handle_after_ptr. rewrite Hf, Hr. simpl.
  destruct (nx_gate no_proxy (filter_search_domain srv) name) eqn:Hg.
  - rewrite reply_no_forward_b. split.
    + split; [done|]. intros (H1 & H2 & H3 & H4). unfold nx_gate in Hg.
      rewrite H1, H2, H3 in Hg. simpl in Hg. apply Nat.eqb_eq in Hg. done.
    + intros _ Ht. apply in_or_app. right. unfold reply. rewrite Ht. by left.
  - unfold nx_gate in Hg. rewrite !orb_false_iff in Hg.
    destruct Hg as [[[H1 H2] H3] H4]. apply Nat.eqb_neq in H4. split; [done|].
    done.
Qed.

Lemma forwarding_gate_witness :
  resolved_ip_list engine_srv (sock_ip client) "example.com." = [] /\
  (existsb is_forward (handle (fun _ => true) (fun _ => true) (fun _ => true) false
                              engine_srv client (query 7 "example.com." A)) = true <->
   false = false /\ Str.ends_with (filter_search_domain engine_srv) "example.com." = false /\
   Str.ends_with (filter_search_domain engine_srv ++ ".") "example.com." = false /\
   Str.count_char "."%char "example.com." <> 1%nat).
Proof.
  split; [vm_compute; reflexivity|].
  refine (proj1 (forwarding_gate (fun _ => true) (fun _ => true) (fun _ => true) false
                   engine_srv client (query 7 "example.com." A) "example.com." A _ _ _ _));
    vm_compute; reflexivity.
Defined.

(** Claim C1 counterexample: the single-label query [foo.] from the
    non-internal client, with no_proxy unset and a name outside the search
    domain, gets NXDOMAIN and is not forwarded. *)
Lemma forwarding_gate_counterexample :
  ctr_is_internal (backend engine_srv) (sock_ip client) = false /\
  Str.ends_with (filter_search_domain engine_srv) "foo." = false /\
  Str.ends_with (filter_search_domain engine_srv ++ ".") "foo." = false /\
  resolved_ip_list engine_srv (sock_ip client) "foo." = [] /\
  existsb is_forward (handle (fun _ => true) (fun _ => true) (fun _ => true) false
                             engine_srv client (query 7 "foo." A)) = false.
Proof. vm_compute. repeat split. Qed.







(** Claim C9: for a PTR query whose rebuilt address parses and has a
    reverse lookup result, the handler sends the PTR reply and then goes
    on with the same request through the forward lookup and the
    forwarding path: its events are those of the PTR reply followed by
    those of that path. *)
Theorem ptr_answer_continues fso fao tvo no_proxy srv src req name lookup_ip names :
  parse_dns_msg req = (name, PTR) ->
  IpParse.parse_ip (ptr_lookup_ip name) = Some lookup_ip ->
  reverse_lookup (backend srv) (sock_ip src) lookup_ip = Some names ->
  handle fso fao tvo no_proxy srv src req =
  (snd (reply tvo src (add_ptr_answers fao names req)) ++
   handle_after_ptr fso tvo no_proxy srv src req name PTR
     (dns_resolver_nameservers srv (sock_ip src)))%list.
Proof.
  intros Hp Hip Hrev. unfold handle. rewrite Hp. simpl.
  unfold ptr_events. by rewrite Hip, Hrev.
Qed.

Lemma ptr_answer_continues_witness :
  exists m ns,
    handle (fun _ => true) (fun _ => true) (fun _ => true) false engine_srv client
      (query 7 "4.0.88.10.in-addr.arpa." PTR)
    = [Reply client m; Forward client ns (query 7 "4.0.88.10.in-addr.arpa." PTR)].
Proof.
  rewrite (ptr_answer_continues (fun _ => true) (fun _ => true) (fun _ => true) false
             engine_srv client (query 7 "4.0.88.10.in-addr.arpa." PTR)
             "4.0.88.10.in-addr.arpa." (Fixtures.ip4 10 88 0 4) ["a"]);
    [| reflexivity | vm_compute; reflexivity | vm_compute; reflexivity].
  vm_compute. eexists _, _. reflexivity.
Defined.

End EngineProps.

(* --------------------------------------------------------------------- *)
(** ** Listener reconcile: stopping and starting *)
(* --------------------------------------------------------------------- *)

Module ReconcileMore.
Import Reconcile.

Section Props.
Context {Ip : Type} `{Countable Ip}.

Lemma stop_fold (l : list (@key Ip)) (st : RState Ip) :
  NoDup l -> (forall k, k ∈ l -> thread_handles st !! k <> None) ->
  exists st', fold_left stop_one l (Some st) = Some st' /\
    (forall k, thread_handles st' !! k = if decide (k ∈ l) then None else thread_handles st !! k) /\
    next_task st' = next_task st /\
    exists new, log st' = (log st ++ new)%list /\
      Forall2 (fun k e => exists t, thread_handles st !! k = Some t /\ e = Stopped k t) l new.
Proof.
  revert st. induction l as [|k l IH]; intros st Hnd Hin.
  - exists st. split; [done|]. split; [intros k; rewrite decide_False; [done|by intros ?%elem_of_nil]|].
    split; [done|]. exists []. by rewrite app_nil_r.
  - apply NoDup_cons in Hnd as [Hk Hnd'].
    destruct (thread_handles st !! k) as [t|] eqn:Ht; [|by destruct (Hin k ltac:(by apply elem_of_cons; left))].
    set (st1 := {| thread_handles := delete k (thread_handles st); next_task := next_task st;
                   log := (log st ++ [Stopped k t])%list |}).
    destruct (IH st1) as (st' & Hf & Hh & Hn & new & Hl & Hf2); [done| |].
    { intros k' Hk'. simpl. rewrite lookup_delete_ne.
      - apply Hin. by apply elem_of_cons; right.
      - intros ->. done. }
    assert (Hs : stop_one (Some st) k = Some st1) by (unfold stop_one; rewrite Ht; done).
    exists st'. cbn [fold_left]. rewrite Hs. split; [done|]. split; [|split].
    + intros k'. rewrite Hh. simpl.
      destruct (decide (k' ∈ l)) as [Hi|Hi]; destruct (decide (k' ∈ k :: l)) as [Hj|Hj].
      * done.
      * exfalso. apply Hj. by apply elem_of_cons; right.
      * apply elem_of_cons in Hj as [->|]; [|done]. by rewrite lookup_delete_eq.
      * rewrite lookup_delete_ne; [done|]. intros ->. apply Hj. by apply elem_of_cons; left.
    + done.
    + exists (Stopped k t :: new). split.
      * rewrite Hl. simpl. by rewrite <- app_assoc.
      * constructor; [by exists t|].
        eapply Forall2_impl; [exact Hf2|]. intros k' e (t' & Ht' & ->). exists t'.
        split; [|done]. simpl in Ht'. rewrite lookup_delete_ne in Ht'; [done|].
        intros ->. rewrite lookup_delete_eq in Ht'. done.
Qed.

Lemma map_fmap_list {A B} (f : A -> B) (l : list A) : map f l = f <$> l.
Proof. induction l as [|a l IH]; simpl; [done|]. by rewrite IH. Qed.

Lemma keys_elem (m : gmap (@key Ip) nat) k :
  k ∈ map fst (map_to_list m) <-> m !! k <> None.
Proof.
  rewrite map_fmap_list, list_elem_of_fmap. split.
  - intros [[k' t] [-> Hin]]. apply elem_of_map_to_list in Hin. simpl. by rewrite Hin.
  - intros Hk. destruct (m !! k) as [t|] eqn:Ht; [|done].
    exists (k, t). split; [done|]. by apply elem_of_map_to_list.
Qed.

Lemma keys_nodup (m : gmap (@key Ip) nat) : NoDup (map fst (map_to_list m)).
Proof. rewrite map_fmap_list. apply NoDup_fst_map_to_list. Qed.

Lemma expected_inner (n : string) (ips : list Ip) (acc : gset (@key Ip)) k :
  k ∈ fold_left (fun acc ip => {[(n, ip)]} ∪ acc) ips acc <->
  k ∈ acc \/ exists ip, ip ∈ ips /\ k = (n, ip).
Proof.
  revert acc. induction ips as [|ip ips IH]; intros acc; simpl.
  - split; [by left|]. intros [?|(ip & Hip & _)]; [done|]. by apply elem_of_nil in Hip.
  - rewrite IH, elem_of_union, elem_of_singleton. split.
    + intros [[->|?]|(ip' & Hip' & ->)].
      * right. exists ip. split; [apply elem_of_cons; by left|done].
      * by left.
      * right. exists ip'. split; [apply elem_of_cons; by right|done].
    + intros [?|(ip' & Hip' & ->)]; [left; by right|].
      apply elem_of_cons in Hip' as [->|?]; [left; by left|].
      right. by exists ip'.
Qed.

Lemma expected_outer (l : list (string * list Ip)) (acc : gset (@key Ip)) k :
  k ∈ fold_left (fun acc '(network_name, listen_ip_list) =>
                   fold_left (fun acc ip => {[(network_name, ip)]} ∪ acc) listen_ip_list acc) l acc <->
  k ∈ acc \/ exists n ips ip, (n, ips) ∈ l /\ ip ∈ ips /\ k = (n, ip).
Proof.
  revert acc. induction l as [|[n ips] l IH]; intros acc; simpl.
  - split; [by left|]. intros [?|(n & ips & ip & Hin & _)]; [done|]. by apply elem_of_nil in Hin.
  - rewrite IH, expected_inner. split.
    + intros [[?|(ip & Hip & ->)]|(n' & ips' & ip & Hin & Hip & ->)].
      * by left.
      * right. exists n, ips, ip. split; [apply elem_of_cons; by left|done].
      * right. exists n', ips', ip. split; [apply elem_of_cons; by right|done].
    + intros [?|(n' & ips' & ip & Hin & Hip & ->)]; [left; by left|].
      apply elem_of_cons in Hin as [Heq|Hin].
      * injection Heq as -> ->. left. right. by exists ip.
      * right. by exists n', ips', ip.
Qed.

Lemma expected_threads_spec (plan : gmap string (list Ip)) n ip :
  (n, ip) ∈ expected_threads plan <-> exists ips, plan !! n = Some ips /\ ip ∈ ips.
Proof.
  unfold expected_threads. rewrite expected_outer. split.
  - intros [Hk|(n' & ips & ip' & Hin & Hip & Heq)]; [by apply elem_of_empty in Hk|].
    injection Heq as -> ->. exists ips. split; [|done]. by apply elem_of_map_to_list.
  - intros (ips & Hn & Hip). right. exists n, ips, ip. split; [|done].
    by apply elem_of_map_to_list.
Qed.

Section Start.
Variable addr_to_string : Ip -> N -> string.
Variable udp_bind tcp_bind : Ip -> N -> option IoErrorKind.
Variable port : N.

Lemma start_fold (l : list (@key Ip)) errs0 (s0 : RState Ip) errs s :
  fold_left (start_one addr_to_string udp_bind tcp_bind port) l (errs0, s0) = (errs, s) ->
  (exists new, errs = (errs0 ++ new)%list /\
     (new = [] <-> forall k, k ∈ l -> udp_bind k.2 port = None /\ tcp_bind k.2 port = None)) /\
  (forall k, k ∈ l -> udp_bind k.2 port = None -> tcp_bind k.2 port = None ->
     thread_handles s !! k <> None) /\
  (forall k, k ∈ l -> (udp_bind k.2 port <> None \/ tcp_bind k.2 port <> None) ->
     thread_handles s !! k = thread_handles s0 !! k) /\
  (forall k, k ∉ l -> thread_handles s !! k = thread_handles s0 !! k).
Proof.
  revert errs0 s0. induction l as [|[n ip] l IH]; intros errs0 s0 Hf.
  - simpl in Hf. injection Hf as <- <-. split; [|split; [|split]].
    + exists []. rewrite app_nil_r. split; [done|]. split; [|done].
      intros _ k Hk. by apply elem_of_nil in Hk.
    + intros k Hk. by apply elem_of_nil in Hk.
    + intros k Hk. by apply elem_of_nil in Hk.
    + done.
  - assert (Hf' : fold_left (start_one addr_to_string udp_bind tcp_bind port) l
              (start_one addr_to_string udp_bind tcp_bind port (errs0, s0) (n, ip)) = (errs, s))
      by exact Hf. clear Hf. rename Hf' into Hf.
    destruct (start_one addr_to_string udp_bind tcp_bind port (errs0, s0) (n, ip))
      as [errs1 s1] eqn:Hs.
    destruct (IH _ _ Hf) as ((new & -> & Hnew) & Hok & Hbad & Hout).
    assert (Hstep : (exists e, errs1 = (errs0 ++ [e])%list /\ s1 = s0 /\
                       (udp_bind ip port <> None \/ tcp_bind ip port <> None)) \/
                    (errs1 = errs0 /\ udp_bind ip port = None /\ tcp_bind ip port = None /\
                     thread_handles s1 = <[(n, ip) := next_task s0]> (thread_handles s0))).
    { unfold start_one in Hs. destruct (udp_bind ip port) as [e|] eqn:Hu.
      - left. injection Hs as <- <-. eexists. split; [done|]. split; [done|]. by left.
      - destruct (tcp_bind ip port) as [e|] eqn:Ht.
        + left. injection Hs as <- <-. eexists. split; [done|]. split; [done|]. by right.
        + right. injection Hs as <- <-. done. }
    destruct Hstep as [(e & -> & -> & Hbnd)|(-> & Hu & Ht & Hs1)].
    + split; [|split; [|split]].
      * exists (e :: new). rewrite <- app_assoc. split; [done|]. split; [done|].
        intros Hall. exfalso. destruct (Hall (n, ip)) as [Hu Ht]; [apply elem_of_cons; by left|].
        simpl in *. destruct Hbnd; done.
      * intros k Hk Hu Ht. apply elem_of_cons in Hk as [->|Hk]; [|by apply Hok].
        simpl in *. destruct Hbnd; done.
      * intros k Hk Hb. destruct (decide (k ∈ l)) as [Hl|Hl]; [by apply Hbad|by apply Hout].
      * intros k Hk. apply Hout. intros Hl. apply Hk. by apply elem_of_cons; right.
    + split; [|split; [|split]].
      * exists new. split; [done|]. rewrite Hnew. split.
        -- intros Hall k Hk. apply elem_of_cons in Hk as [->|Hk]; [done|]. by apply Hall.
        -- intros Hall k Hk. apply Hall. by apply elem_of_cons; right.
      * intros k Hk Hu' Ht'. destruct (decide (k ∈ l)) as [Hl|Hl]; [by apply Hok|].
        rewrite Hout by done. apply elem_of_cons in Hk as [->|]; [|done].
        rewrite Hs1, lookup_insert_eq. done.
      * intros k Hk Hb.
        destruct (decide (k ∈ l)) as [Hl|Hl]; [rewrite Hbad by done|rewrite Hout by done];
          rewrite Hs1, lookup_insert_ne; try done; intros <-; simpl in Hb; destruct Hb; done.
      * intros k Hk. rewrite Hout, Hs1, lookup_insert_ne; [done| |].
        -- intros <-. apply Hk. apply elem_of_cons; by left.
        -- intros Hl. apply Hk. by apply elem_of_cons; right.
Qed.

End Start.

Lemma stop_phase (st : RState Ip) (expected : gset (@key Ip)) :
  exists st1,
    stop_threads st (Some (filter (fun k => k ∉ expected) (map fst (map_to_list (thread_handles st)))))
      = Some st1 /\
    forall k, thread_handles st1 !! k = if decide (k ∈ expected) then thread_handles st !! k else None.
Proof.
  destruct (stop_fold (filter (fun k => k ∉ expected) (map fst (map_to_list (thread_handles st)))) st)
    as (st1 & Hf & Hh & _).
  - apply NoDup_filter, keys_nodup.
  - intros k Hk. apply list_elem_of_filter in Hk as [_ Hk]. by apply keys_elem.
  - exists st1. split; [exact Hf|]. intros k. rewrite Hh.
    destruct (decide (k ∈ expected)) as [He|He].
    + rewrite decide_False; [done|]. intros Hk. apply list_elem_of_filter in Hk as [Hk _]. done.
    + destruct (decide (k ∈ filter _ _)) as [Hk|Hk]; [done|].
      destruct (thread_handles st !! k) as [t|] eqn:Ht; [|done].
      exfalso. apply Hk. apply list_elem_of_filter. split; [done|].
      apply keys_elem. by rewrite Ht.
Qed.

Lemma stop_threads_none_core (st : RState Ip) :
  exists st', stop_threads st None = Some st' /\
    thread_handles st' = ∅ /\ next_task st' = next_task st /\
    exists new, log st' = (log st ++ new)%list /\
      Forall2 (fun kt e => e = Stopped kt.1 kt.2) (map_to_list (thread_handles st)) new.
Proof.
  destruct (stop_fold (map fst (map_to_list (thread_handles st))) st)
    as (st' & Hf & Hh & Hn & new & Hl & Hf2).
  - apply keys_nodup.
  - intros k Hk. by apply keys_elem.
  - exists st'. split; [exact Hf|]. split; [|split; [done|]].
    + apply map_eq. intros k. rewrite Hh, lookup_empty.
      destruct (decide _) as [|Hk]; [done|].
      destruct (thread_handles st !! k) eqn:Ht; [|done].
      exfalso. apply Hk. apply keys_elem. by rewrite Ht.
    + exists new. split; [done|].
      assert (Hgen : forall (kts : list (@key Ip * nat)) new,
                NoDup kts.*1 -> (forall kt, kt ∈ kts -> thread_handles st !! kt.1 = Some kt.2) ->
                Forall2 (fun k e => exists t, thread_handles st !! k = Some t /\ e = Stopped k t)
                  (map fst kts) new ->
                Forall2 (fun kt e => e = Stopped kt.1 kt.2) kts new).
      { induction kts as [|[k t] kts IH]; intros new' Hnd Hkts Hf';
          inversion Hf' as [|? e ? new'' Hy Hr]; subst; [done|].
        constructor.
        - destruct Hy as (t' & Ht' & ->).
          assert (Hk : thread_handles st !! k = Some t)
            by exact (Hkts (k, t) ltac:(by apply elem_of_cons; left)).
          cbn [fst snd]. assert (t' = t) as -> by congruence. done.
        - apply IH; [|intros kt Hkt; apply Hkts; by apply elem_of_cons; right|done].
          cbn in Hnd. by apply NoDup_cons in Hnd as [_ ?]. }
      apply Hgen; [apply NoDup_fst_map_to_list| |exact Hf2].
      intros [k t] Hkt. by apply elem_of_map_to_list.
Qed.

Section Threads.
Variable addr_to_string : Ip -> N -> string.
Variable udp_bind tcp_bind : Ip -> N -> option IoErrorKind.

Lemma stop_and_start_inv (port : N) (plan : gmap string (list Ip)) (st : RState Ip) :
  exists r st1 st',
    stop_and_start_threads addr_to_string udp_bind tcp_bind port plan st = Some (r, st') /\
    (forall k, thread_handles st1 !! k =
               if decide (k ∈ expected_threads plan) then thread_handles st !! k else None) /\
    let to_start := filter (fun k => thread_handles st1 !! k = None) (elements (expected_threads plan)) in
    (exists errs, fold_left (start_one addr_to_string udp_bind tcp_bind port) to_start ([], st1)
                  = (errs, st') /\ (r = Ok tt <-> errs = [])).
Proof.
  destruct (stop_phase st (expected_threads plan)) as (st1 & Hs & Hh).
  unfold stop_and_start_threads. rewrite Hs.
  destruct (fold_left _ _ ([], st1)) as [errs st'] eqn:Hf.
  exists (match errs with [] => Ok tt | _ => Err (List errs) end), st1, st'.
  split; [by destruct errs|]. split; [done|].
  exists errs. split; [done|]. by destruct errs.
Qed.

Lemma sst_keeps_plan_core (port : N) (plan : gmap string (list Ip))
    (st : RState Ip) :
  exists r st',
    stop_and_start_threads addr_to_string udp_bind tcp_bind port plan st = Some (r, st') /\
    (forall n ip, thread_handles st' !! (n, ip) <> None ->
                  exists ips, plan !! n = Some ips /\ ip ∈ ips) /\
    (forall n ip t, (exists ips, plan !! n = Some ips /\ ip ∈ ips) ->
                    thread_handles st !! (n, ip) = Some t ->
                    thread_handles st' !! (n, ip) = Some t).
Proof.
  destruct (stop_and_start_inv port plan st) as (r & st1 & st' & Hr & Hh & errs & Hf & _).
  apply start_fold in Hf as (_ & Hok & Hbad & Hout).
  exists r, st'. split; [done|]. split.
  - intros n ip Hk. apply expected_threads_spec.
    destruct (decide ((n, ip) ∈ filter (fun k => thread_handles st1 !! k = None)
                         (elements (expected_threads plan)))) as [Hin|Hin].
    + apply list_elem_of_filter in Hin as [_ Hin]. by apply elem_of_elements.
    + rewrite Hout, Hh in Hk by done. by destruct (decide _).
  - intros n ip t Hplan Ht. apply expected_threads_spec in Hplan.
    rewrite Hout.
    + rewrite Hh. by rewrite decide_True.
    + intros Hin. apply list_elem_of_filter in Hin as [Hn _].
      rewrite Hh, decide_True in Hn by done. unfold key in *. congruence.
Qed.

Lemma sst_starts_new_core (port : N) (plan : gmap string (list Ip))
    (st : RState Ip) :
  exists r st',
    stop_and_start_threads addr_to_string udp_bind tcp_bind port plan st = Some (r, st') /\
    (forall n ip, (exists ips, plan !! n = Some ips /\ ip ∈ ips) ->
                  thread_handles st !! (n, ip) = None ->
                  (thread_handles st' !! (n, ip) <> None <->
                   udp_bind ip port = None /\ tcp_bind ip port = None)) /\
    (r = Ok tt <-> forall n ip, (exists ips, plan !! n = Some ips /\ ip ∈ ips) ->
                  thread_handles st !! (n, ip) = None ->
                  udp_bind ip port = None /\ tcp_bind ip port = None).
Proof.
  destruct (stop_and_start_inv port plan st) as (r & st1 & st' & Hr & Hh & errs & Hf & Herr).
  apply start_fold in Hf as ((new & -> & Hnew) & Hok & Hbad & Hout).
  assert (Hts : forall n ip, (exists ips, plan !! n = Some ips /\ ip ∈ ips) ->
                  thread_handles st !! (n, ip) = None ->
                  (n, ip) ∈ filter (fun k => thread_handles st1 !! k = None)
                              (elements (expected_threads plan))).
  { intros n ip Hplan Hn. apply expected_threads_spec in Hplan.
    apply list_elem_of_filter. split.
    - rewrite Hh, decide_True by done. done.
    - by apply elem_of_elements. }
  exists r, st'. split; [done|]. split.
  - intros n ip Hplan Hn. specialize (Hts n ip Hplan Hn). split.
    + intros Hk. destruct (udp_bind ip port) eqn:Hu; [|destruct (tcp_bind ip port) eqn:Ht].
      * rewrite Hbad in Hk by first [done | simpl; rewrite Hu; by left].
        apply list_elem_of_filter in Hts as [Hts _]. done.
      * rewrite Hbad in Hk by first [done | simpl; rewrite Ht; by right].
        apply list_elem_of_filter in Hts as [Hts _]. done.
      * done.
    + intros [Hu Ht]. by apply Hok.
  - rewrite Herr. simpl. rewrite Hnew. split.
    + intros Hall n ip Hplan Hn. apply (Hall (n, ip)). by apply Hts.
    + intros Hall [n ip] Hk. apply list_elem_of_filter in Hk as [Hn Hk].
      apply elem_of_elements, expected_threads_spec in Hk.
      rewrite Hh in Hn. destruct (decide _) as [He|He].
      * apply (Hall n ip); [done|]. unfold key in *. exact Hn.
      * exfalso. apply He. by apply expected_threads_spec.
Qed.

End Threads.

(** [stop_threads(handles, None)] (server/serve.rs, [stop_threads]): with
    no filter every registered listener is stopped: the call never panics,
    the registry ends empty, and the log gets one [Stopped] event per
    registered listener, with its task, in the registry's order. *)
Theorem stop_threads_all_stopped (st : RState Ip) :
  exists st', stop_threads st None = Some st' /\
    thread_handles st' = ∅ /\ next_task st' = next_task st /\
    exists new, log st' = (log st ++ new)%list /\
      Forall2 (fun kt e => e = Stopped kt.1 kt.2) (map_to_list (thread_handles st)) new.
Proof. apply stop_threads_none_core. Qed.

Section Threads2.
Variable addr_to_string : Ip -> N -> string.
Variable udp_bind tcp_bind : Ip -> N -> option IoErrorKind.

(** [stop_and_start_threads] (server/serve.rs) never panics, and after it
    the registry holds only listeners of the plan: every registered
    [(network_name, ip)] has [ip] in the plan's list for [network_name].
    A listener of the plan that was already running keeps its task: it is
    neither stopped nor restarted. *)
Theorem stop_and_start_threads_keeps_plan (port : N) (plan : gmap string (list Ip))
    (st : RState Ip) :
  exists r st',
    stop_and_start_threads addr_to_string udp_bind tcp_bind port plan st = Some (r, st') /\
    (forall n ip, thread_handles st' !! (n, ip) <> None ->
                  exists ips, plan !! n = Some ips /\ ip ∈ ips) /\
    (forall n ip t, (exists ips, plan !! n = Some ips /\ ip ∈ ips) ->
                    thread_handles st !! (n, ip) = Some t ->
                    thread_handles st' !! (n, ip) = Some t).
Proof. apply sst_keeps_plan_core. Qed.

(** [stop_and_start_threads] (server/serve.rs) starts each listener of the
    plan that was not running exactly when both its UDP and its TCP bind
    succeed, and reports [Ok] exactly when every such bind succeeds: one
    failed bind makes the whole call return an error, without undoing the
    listeners that did start. *)
Theorem stop_and_start_threads_starts_new (port : N) (plan : gmap string (list Ip))
    (st : RState Ip) :
  exists r st',
    stop_and_start_threads addr_to_string udp_bind tcp_bind port plan st = Some (r, st') /\
    (forall n ip, (exists ips, plan !! n = Some ips /\ ip ∈ ips) ->
                  thread_handles st !! (n, ip) = None ->
                  (thread_handles st' !! (n, ip) <> None <->
                   udp_bind ip port = None /\ tcp_bind ip port = None)) /\
    (r = Ok tt <-> forall n ip, (exists ips, plan !! n = Some ips /\ ip ∈ ips) ->
                  thread_handles st !! (n, ip) = None ->
                  udp_bind ip port = None /\ tcp_bind ip port = None).
Proof. apply sst_starts_new_core. Qed.

End Threads2.

End Props.
End ReconcileMore.

(* --------------------------------------------------------------------- *)
(** ** Configuration reload: [read_config_and_spawn] *)
(* --------------------------------------------------------------------- *)

Module ServeProps.
Import Config ConfigWalk Reconcile Serve ServeFixtures.



(** When the parsed configuration has no listen address at all,
    [read_config_and_spawn] (server/serve.rs) ends the process. If the PID
    file cannot be removed it exits with code 1 and stops no listener;
    otherwise it first stops every listener of both registries and exits
    with code 0. *)
Theorem reload_empty_plan_exits (env : Env) (dir : ConfigDir) (port : N) (fsd : string)
    (w : World) (conf : Backend.DNSBackend) :
  parse_configs dir fsd = Ok (conf, ∅, ∅) ->
  exists w', backend w' = Some conf /\ nameservers w' = nameservers w /\
    match remove_pid env with
    | Some _ =>
        read_config_and_spawn env dir port fsd w = Some (Exited 1, w') /\
        handles_v4 w' = handles_v4 w /\ handles_v6 w' = handles_v6 w /\
        pid_removed w' = pid_removed w
    | None =>
        read_config_and_spawn env dir port fsd w = Some (Exited 0, w') /\
        thread_handles (handles_v4 w') = ∅ /\ thread_handles (handles_v6 w') = ∅ /\
        pid_removed w' = true
    end.
Proof.
  intros Hp. unfold read_config_and_spawn. rewrite Hp. cbn [wrap].
  rewrite !bool_decide_eq_true_2 by done. cbn [andb].
  destruct (remove_pid env) as [k|].
  - exists (set_backend w conf). by repeat split.
  - cbn [handles_v4 handles_v6 set_pid_removed set_backend].
    destruct (ReconcileMore.stop_threads_none_core (handles_v4 w)) as (h4 & E4 & H4 & _).
    destruct (ReconcileMore.stop_threads_none_core (handles_v6 w)) as (h6 & E6 & H6 & _).
    rewrite E4, E6. exists (set_handles (set_pid_removed (set_backend w conf)) h4 h6).
    by repeat split.
Qed.

Lemma reload_empty_plan_exits_witness :
  exists w', backend w' = Some default_backend /\ nameservers w' = [] /\
    read_config_and_spawn good_env (ConfigFixtures.dir_of []) 53 "" start_world = Some (Exited 0, w') /\
    thread_handles (handles_v4 w') = ∅ /\ thread_handles (handles_v6 w') = ∅ /\
    pid_removed w' = true.
Proof.
  apply (reload_empty_plan_exits good_env (ConfigFixtures.dir_of []) 53 "" start_world
           default_backend).
  vm_compute. reflexivity.
Defined.

(** When the parsed configuration has a listen address,
    [read_config_and_spawn] (server/serve.rs) returns without exiting or
    panicking. It stores the new backend and sets the host nameserver list
    to what resolv.conf gives, or to the empty list when reading resolv.conf
    fails; each registry then holds only listeners of its listen plan. When
    the reload returns [Ok], resolv.conf was read and every listener of both
    plans is running. *)
Theorem reload_applies_plan (env : Env) (dir : ConfigDir) (port : N) (fsd : string)
    (w : World) (conf : Backend.DNSBackend) (l4 l6 : gmap string (list N)) :
  parse_configs dir fsd = Ok (conf, l4, l6) -> ~ (l4 = ∅ /\ l6 = ∅) ->
  exists r w', read_config_and_spawn env dir port fsd w = Some (Returned r, w') /\
    backend w' = Some conf /\ pid_removed w' = pid_removed w /\
    nameservers w' = match get_upstream_resolvers (if_nametoindex env) (resolv_file env) with
                     | Ok ns => ns | Err _ => [] end /\
    (forall n ip, thread_handles (handles_v4 w') !! (n, ip) <> None ->
                  exists ips, l4 !! n = Some ips /\ ip ∈ ips) /\
    (forall n ip, thread_handles (handles_v6 w') !! (n, ip) <> None ->
                  exists ips, l6 !! n = Some ips /\ ip ∈ ips) /\
    (r = Ok tt ->
       is_ok (get_upstream_resolvers (if_nametoindex env) (resolv_file env)) = true /\
       (forall n ip, (exists ips, l4 !! n = Some ips /\ ip ∈ ips) ->
                     thread_handles (handles_v4 w') !! (n, ip) <> None) /\
       (forall n ip, (exists ips, l6 !! n = Some ips /\ ip ∈ ips) ->
                     thread_handles (handles_v6 w') !! (n, ip) <> None)).
Proof.
  intros Hp Hne. unfold read_config_and_spawn. rewrite Hp. cbn [wrap].
  assert (Hb : bool_decide (l4 = ∅) && bool_decide (l6 = ∅) = false).
  { destruct (bool_decide_reflect (l4 = ∅)), (bool_decide_reflect (l6 = ∅)); try done.
    exfalso. by apply Hne. }
  rewrite Hb.
  destruct (ReconcileMore.sst_keeps_plan_core (addr4 env) (udp4 env) (tcp4 env) port l4 (handles_v4 w))
    as (r4 & h4 & E4 & O4 & K4).
  destruct (ReconcileMore.sst_starts_new_core (addr4 env) (udp4 env) (tcp4 env) port l4 (handles_v4 w))
    as (r4' & h4' & E4' & N4 & R4).
  rewrite E4 in E4'. injection E4' as <- <-.
  destruct (ReconcileMore.sst_keeps_plan_core (addr6 env) (udp6 env) (tcp6 env) port l6 (handles_v6 w))
    as (r6 & h6 & E6 & O6 & K6).
  destruct (ReconcileMore.sst_starts_new_core (addr6 env) (udp6 env) (tcp6 env) port l6 (handles_v6 w))
    as (r6' & h6' & E6' & N6 & R6).
  rewrite E6 in E6'. injection E6' as <- <-.
  assert (Hall : forall (h h' : RState N) (l : gmap string (list N)) (udp tcp : N -> N -> option IoErrorKind),
            (forall n ip t, (exists ips, l !! n = Some ips /\ ip ∈ ips) ->
                            thread_handles h !! (n, ip) = Some t -> thread_handles h' !! (n, ip) = Some t) ->
            (forall n ip, (exists ips, l !! n = Some ips /\ ip ∈ ips) ->
                          thread_handles h !! (n, ip) = None ->
                          (thread_handles h' !! (n, ip) <> None <->
                           udp ip port = None /\ tcp ip port = None)) ->
            (forall n ip, (exists ips, l !! n = Some ips /\ ip ∈ ips) ->
                          thread_handles h !! (n, ip) = None ->
                          udp ip port = None /\ tcp ip port = None) ->
            forall n ip, (exists ips, l !! n = Some ips /\ ip ∈ ips) ->
                         thread_handles h' !! (n, ip) <> None).
  { intros h h' l udp tcp K N' B n ip Hin.
    destruct (thread_handles h !! (n, ip)) as [t|] eqn:Ht.
    - by rewrite (K n ip t Hin Ht).
    - apply (N' n ip Hin Ht). exact (B n ip Hin Ht). }
  destruct (get_upstream_resolvers (if_nametoindex env) (resolv_file env)) as [ns|err] eqn:Hu;
    cbn [handles_v4 handles_v6 set_nameservers set_backend]; rewrite E4, E6.
  - eexists _, _. split; [reflexivity|]. cbn.
    split; [done|]. split; [done|]. split; [done|]. split; [done|]. split; [done|].
    intros Hr. split; [done|]. split.
    + apply (Hall (handles_v4 w) h4 l4 (udp4 env) (tcp4 env)); [done|done|].
      apply R4. destruct r4 as [[]|e4]; [done|]. by destruct r6.
    + apply (Hall (handles_v6 w) h6 l6 (udp6 env) (tcp6 env)); [done|done|].
      apply R6. destruct r6 as [[]|e6]; [done|]. by destruct r4 as [[]|].
  - eexists _, _. split; [reflexivity|]. cbn.
    split; [done|]. split; [done|]. split; [done|]. split; [done|]. split; [done|].
    intros Hr. by destruct r4, r6.
Qed.

Lemma reload_applies_plan_witness :
  parse_configs ConfigFixtures.good_and_broken "dns.podman" = Ok (reload_conf, reload_l4, reload_l6) /\
  ~ (reload_l4 = ∅ /\ reload_l6 = ∅) /\
  exists r w', read_config_and_spawn good_env ConfigFixtures.good_and_broken 53 "dns.podman"
                 start_world = Some (Returned r, w') /\
    backend w' = Some reload_conf /\ pid_removed w' = pid_removed start_world /\
    nameservers w' = match get_upstream_resolvers (if_nametoindex good_env) (resolv_file good_env) with
                     | Ok ns => ns | Err _ => [] end /\
    (forall n ip, thread_handles (handles_v4 w') !! (n, ip) <> None ->
                  exists ips, reload_l4 !! n = Some ips /\ ip ∈ ips) /\
    (forall n ip, thread_handles (handles_v6 w') !! (n, ip) <> None ->
                  exists ips, reload_l6 !! n = Some ips /\ ip ∈ ips) /\
    (r = Ok tt ->
       is_ok (get_upstream_resolvers (if_nametoindex good_env) (resolv_file good_env)) = true /\
       (forall n ip, (exists ips, reload_l4 !! n = Some ips /\ ip ∈ ips) ->
                     thread_handles (handles_v4 w') !! (n, ip) <> None) /\
       (forall n ip, (exists ips, reload_l6 !! n = Some ips /\ ip ∈ ips) ->
                     thread_handles (handles_v6 w') !! (n, ip) <> None)).
Proof.
  assert (Hp : parse_configs ConfigFixtures.good_and_broken "dns.podman"
               = Ok (reload_conf, reload_l4, reload_l6)) by (vm_compute; reflexivity).
  assert (Hne : ~ (reload_l4 = ∅ /\ reload_l6 = ∅)).
  { intros [H4 _]. vm_compute in H4. discriminate H4. }
  split; [exact Hp|]. split; [exact Hne|].
  exact (reload_applies_plan good_env ConfigFixtures.good_and_broken 53 "dns.podman" start_world
           reload_conf reload_l4 reload_l6 Hp Hne).
Defined.

End ServeProps.

(* --------------------------------------------------------------------- *)
(** ** DNS engine: answers, forwarding and resolver choice *)
(* --------------------------------------------------------------------- *)

Module EngineMore.
Import Backend Engine EngineFixtures.

(** The A records of the local answer for [record_name]: one per IPv4
    address of [ips], in order. *)
Lemma add_addr_answers_fold_a (record_name : string) (ips : list IpAddr) (req : Message) :
  fold_left (fun m addr =>
               match addr with
               | V4 ipv4 => add_answer (mk_record (Some record_name) 86400 A IN (Some (RA ipv4))) m
               | V6 _ => m
               end) ips req =
  {| id := id req; message_type := message_type req; recursion_desired := recursion_desired req;
     recursion_available := recursion_available req; response_code := response_code req;
     queries := queries req;
     answers := (answers req ++
                 map (fun a => mk_record (Some record_name) 86400 A IN (Some (RA a)))
                     (omap (fun ip => match ip with V4 a => Some a | V6 _ => None end) ips))%list |}.
Proof.
  revert req. induction ips as [|[a|b] ips IH]; intros req; simpl.
  - rewrite app_nil_r. by destruct req.
  - rewrite IH. simpl. by rewrite <- app_assoc.
  - rewrite IH. done.
Qed.

Lemma add_addr_answers_fold_aaaa (record_name : string) (ips : list IpAddr) (req : Message) :
  fold_left (fun m addr =>
               match addr with
               | V6 ipv6 => add_answer (mk_record (Some record_name) 86400 AAAA IN (Some (RAAAA ipv6))) m
               | V4 _ => m
               end) ips req =
  {| id := id req; message_type := message_type req; recursion_desired := recursion_desired req;
     recursion_available := recursion_available req; response_code := response_code req;
     queries := queries req;
     answers := (answers req ++
                 map (fun a => mk_record (Some record_name) 86400 AAAA IN (Some (RAAAA a)))
                     (omap (fun ip => match ip with V6 a => Some a | V4 _ => None end) ips))%list |}.
Proof.
  revert req. induction ips as [|[a|b] ips IH]; intros req; simpl.
  - rewrite app_nil_r. by destruct req.
  - rewrite IH. done.
  - rewrite IH. simpl. by rewrite <- app_assoc.
Qed.

(** The local answer of register_port (dns/coredns.rs): for an A query it
    appends one A record per IPv4 address found, in the order found, and
    skips the IPv6 addresses; for an AAAA query the same with the IPv6
    addresses; for any other query type it appends nothing. The request's
    header, queries and earlier answers are kept. *)
Theorem local_answer_records (record_type : RecordType) (record_name : string)
    (ips : list IpAddr) (req : Message) :
  add_addr_answers record_type record_name ips req =
  {| id := id req; message_type := message_type req; recursion_desired := recursion_desired req;
     recursion_available := recursion_available req; response_code := response_code req;
     queries := queries req;
     answers := (answers req ++
                 match record_type with
                 | A => map (fun a => mk_record (Some record_name) 86400 A IN (Some (RA a)))
                            (omap (fun ip => match ip with V4 a => Some a | V6 _ => None end) ips)
                 | AAAA => map (fun a => mk_record (Some record_name) 86400 AAAA IN (Some (RAAAA a)))
                               (omap (fun ip => match ip with V6 a => Some a | V4 _ => None end) ips)
                 | _ => []
                 end)%list |}.
Proof.
  destruct record_type; simpl.
  - apply add_addr_answers_fold_a.
  - apply add_addr_answers_fold_aaaa.
  - rewrite app_nil_r. by destruct req.
  - rewrite app_nil_r. by destruct req.
Qed.

Section Forward.
Variable to_vec_ok : Message -> bool.
Variable connect_ok : IpAddr -> bool.
Variable upstream : IpAddr -> Message -> option Message.

(** The spawned forwarding task of register_port (dns/coredns.rs) tries
    the nameservers in order and stops at the first one that connects,
    answers and whose answer serializes: the client gets exactly one reply,
    that answer with the request's id. When no nameserver gets that far
    the client gets no reply at all. *)
Theorem forward_task_first_success (src : SocketAddr) (nameservers : list IpAddr)
    (req : Message) :
  let ok ns := connect_ok ns && match upstream ns req with
                                | Some resp => to_vec_ok (response_of (set_id (id req) resp))
                                | None => false
                                end in
  (forallb (fun ns => negb (ok ns)) nameservers = true /\
   forward_task to_vec_ok connect_ok upstream src nameservers req = []) \/
  (exists pre ns rest resp,
     nameservers = (pre ++ ns :: rest)%list /\
     forallb (fun ns => negb (ok ns)) pre = true /\
     connect_ok ns = true /\ upstream ns req = Some resp /\
     to_vec_ok (response_of (set_id (id req) resp)) = true /\
     forward_task to_vec_ok connect_ok upstream src nameservers req =
       [Reply src (response_of (set_id (id req) resp))]).
Proof.
  intros ok. induction nameservers as [|ns rest IH].
  - left. done.
  - assert (Hstep : (ok ns = true /\ exists resp, connect_ok ns = true /\ upstream ns req = Some resp /\
                       to_vec_ok (response_of (set_id (id req) resp)) = true /\
                       forward_task to_vec_ok connect_ok upstream src (ns :: rest) req =
                         [Reply src (response_of (set_id (id req) resp))]) \/
                    (ok ns = false /\
                     forward_task to_vec_ok connect_ok upstream src (ns :: rest) req =
                     forward_task to_vec_ok connect_ok upstream src rest req)).
    { simpl. unfold ok, forward_dns_req, reply.
      destruct (connect_ok ns) eqn:Hc; simpl; [|by right].
      destruct (upstream ns req) as [resp|] eqn:Hu; simpl; [|by right].
      destruct (to_vec_ok (response_of (set_id (id req) resp))) eqn:Ht; simpl; [|by right].
      left. split; [done|]. by exists resp. }
    destruct Hstep as [(Hok & resp & Hc & Hu & Ht & Hf)|(Hok & Hf)].
    + right. exists [], ns, rest, resp. done.
    + rewrite Hf. simpl. rewrite Hok. simpl.
      destruct IH as [[Hall Hf']|(pre & ns' & rest' & resp' & -> & Hpre & Hrest)].
      * left. by rewrite Hall.
      * right. exists (ns :: pre), ns', rest', resp'. simpl. rewrite Hok, Hpre. done.
Qed.

End Forward.





End EngineMore.

(* --------------------------------------------------------------------- *)
(** ** Reverse-query names: [ptr_lookup_ip] *)
(* --------------------------------------------------------------------- *)

Module PtrProps.
Import Engine StrProps.

Lemma eqb_app_suffix x suf : String.eqb (x ++ suf) suf = true -> x = "".
Proof.
  intros H. apply String.eqb_eq in H.
  assert (Hl : String.length (x ++ suf) = String.length suf) by (by rewrite H).
  rewrite length_app in Hl. destruct x; [done|simpl in Hl; lia].
Qed.

Lemma strip_suffix_unfold suf s :
  Str.strip_suffix suf s =
  if String.eqb s suf then Some EmptyString
  else match s with
       | EmptyString => None
       | String c s' => option_map (String c) (Str.strip_suffix suf s')
       end.
Proof. by destruct s. Qed.

Lemma strip_suffix_app suf x : Str.strip_suffix suf (x ++ suf) = Some x.
Proof.
  induction x as [|c x IH].
  - rewrite app_nil, strip_suffix_unfold. by rewrite String.eqb_refl.
  - rewrite app_cons, strip_suffix_unfold.
    destruct (String.eqb (String c (x ++ suf)) suf) eqn:He.
    + rewrite <- app_cons in He. by apply eqb_app_suffix in He.
    + by rewrite IH.
Qed.

Lemma strip_suffix_some suf s p : Str.strip_suffix suf s = Some p -> s = p ++ suf.
Proof.
  revert p. induction s as [|c s IH]; intros p H; rewrite strip_suffix_unfold in H.
  - destruct (String.eqb_spec "" suf) as [<-|]; [by injection H as <-|done].
  - destruct (String.eqb_spec (String c s) suf) as [<-|].
    + by injection H as <-.
    + destruct (Str.strip_suffix suf s) as [p'|] eqn:Hs; [|done].
      simpl in H. injection H as <-. rewrite (IH p' eq_refl). done.
Qed.

Lemma prefix_refl s : String.prefix s s = true.
Proof.
  induction s as [|c s IH]; simpl; [done|].
  destruct (Ascii.ascii_dec c c) as [_|n]; [exact IH|by destruct n].
Qed.

Lemma contains_unfold pat s :
  Str.contains pat s =
  String.prefix pat s || match s with EmptyString => false | String _ s' => Str.contains pat s' end.
Proof. by destruct s. Qed.

Lemma contains_app pat x : Str.contains pat (x ++ pat) = true.
Proof.
  induction x as [|c x IH].
  - rewrite app_nil, contains_unfold. by rewrite prefix_refl.
  - rewrite app_cons, contains_unfold. by rewrite IH, orb_true_r.
Qed.

Lemma split_char_none c x : Str.count_char c x = 0 -> Str.split_char c x = [x].
Proof.
  induction x as [|y x IH]; intros H; simpl in *; [done|].
  destruct (Ascii.eqb y c); [simpl in H; lia|]. by rewrite IH.
Qed.

Lemma split_char_app c x y :
  Str.count_char c x = 0 -> Str.split_char c (x ++ String c y) = x :: Str.split_char c y.
Proof.
  induction x as [|z x IH]; intros H; simpl in *.
  - by rewrite Ascii.eqb_refl.
  - destruct (Ascii.eqb z c); [simpl in H; lia|]. by rewrite IH.
Qed.

Lemma count_char_app c x y : Str.count_char c (x ++ y) = Str.count_char c x + Str.count_char c y.
Proof. induction x as [|z x IH]; simpl; [done|]. rewrite IH. lia. Qed.

Lemma last_char_split s : s <> "" -> exists s' x, s = s' ++ String x "".
Proof.
  induction s as [|c s IH]; intros H; [done|].
  destruct s as [|c' s'].
  - by exists "", c.
  - destruct IH as (p & x & Hp); [done|]. exists (String c p), x. rewrite app_cons. by rewrite <- Hp.
Qed.

Lemma app_last_inj u v x y : u ++ String x "" = v ++ String y "" -> x = y.
Proof.
  revert v. induction u as [|c u IH]; intros v H; destruct v as [|d v]; simpl in H.
  - by injection H.
  - injection H as _ H. destruct v; discriminate.
  - injection H as _ H. destruct u; discriminate.
  - injection H as _ H. by apply (IH v).
Qed.

(** The IPv4 branch of the PTR lookup in register_port (dns/coredns.rs):
    the reverse name [d.c.b.a.in-addr.arpa.] is turned into the address
    text [a.b.c.d] that is then parsed and looked up, for any labels
    without dots, the last one not empty. *)
Theorem ptr_lookup_ip_v4 (a b c d : string) :
  Str.count_char "." a = 0 -> Str.count_char "." b = 0 ->
  Str.count_char "." c = 0 -> Str.count_char "." d = 0 -> a <> "" ->
  ptr_lookup_ip (d ++ "." ++ c ++ "." ++ b ++ "." ++ a ++ ".in-addr.arpa.") =
  a ++ "." ++ b ++ "." ++ c ++ "." ++ d.
Proof.
  intros Ha Hb Hc Hd Hne.
  set (body := d ++ "." ++ c ++ "." ++ b ++ "." ++ a).
  assert (Hname : d ++ "." ++ c ++ "." ++ b ++ "." ++ a ++ ".in-addr.arpa." = body ++ ".in-addr.arpa.")
    by (unfold body; rewrite !string_app_assoc; done).
  rewrite Hname. unfold ptr_lookup_ip. rewrite contains_app.
  assert (Htrim : Str.trim_end_matches ".in-addr.arpa." (body ++ ".in-addr.arpa.") = body).
  { unfold Str.trim_end_matches. simpl Str.trim_end_go at 1.
    remember (String.length (body ++ ".in-addr.arpa.")) as n eqn:Hn. clear Hn.
    simpl. rewrite strip_suffix_app. simpl.
    destruct n as [|n]; [done|]. simpl.
    destruct (Str.strip_suffix ".in-addr.arpa." body) as [p|] eqn:Hs; [|done].
    exfalso. apply strip_suffix_some in Hs.
    destruct (last_char_split a Hne) as (a' & x & ->).
    assert (Hx : x = "."%char).
    { apply (app_last_inj (d ++ "." ++ c ++ "." ++ b ++ "." ++ a') (p ++ ".in-addr.arpa")).
      rewrite <- !string_app_assoc. unfold body in Hs. exact Hs. }
    subst x. rewrite count_char_app in Ha. simpl in Ha. lia. }
  rewrite Htrim. unfold body. rewrite !app_cons, !app_nil.
  rewrite !split_char_app by done. rewrite split_char_none by done.
  simpl. reflexivity.
Qed.

Lemma ptr_lookup_ip_v4_witness :
  ptr_lookup_ip ("4" ++ "." ++ "0" ++ "." ++ "88" ++ "." ++ "10" ++ ".in-addr.arpa.") = "10.88.0.4".
Proof.
  exact (ptr_lookup_ip_v4 "10" "88" "0" "4" eq_refl eq_refl eq_refl eq_refl ltac:(discriminate)).
Defined.

End PtrProps.

(* --------------------------------------------------------------------- *)
(** ** Backend lookups *)
(* --------------------------------------------------------------------- *)

Module BackendMore.
Import Backend StrProps BackendProps EngineFixtures.

Lemma lookup_fold_elem (b : DNSBackend) (name : string) (nets : list string)
    (acc : list IpAddr) ip :
  ip ∈ fold_left (fun results net =>
                    match name_mappings b !! net with
                    | None => results
                    | Some net_names =>
                        match net_names !! name with
                        | Some addrs => (results ++ addrs)%list
                        | None => results
                        end
                    end) nets acc <->
  ip ∈ acc \/ exists net nm addrs, net ∈ nets /\ name_mappings b !! net = Some nm /\
                                  nm !! name = Some addrs /\ ip ∈ addrs.
Proof.
  revert acc. induction nets as [|net nets IH]; intros acc; simpl.
  - split; [by left|]. intros [?|(net & nm & addrs & Hn & _)]; [done|]. by apply elem_of_nil in Hn.
  - rewrite IH. split.
    + intros [Hacc|(net' & nm & addrs & Hn & Hm & Ha & Hi)].
      * destruct (name_mappings b !! net) as [nm|] eqn:Hm; [|by left].
        destruct (nm !! name) as [addrs|] eqn:Ha; [|by left].
        apply elem_of_app in Hacc as [?|?]; [by left|].
        right. exists net, nm, addrs. split; [apply elem_of_cons; by left|done].
      * right. exists net', nm, addrs. split; [apply elem_of_cons; by right|done].
    + intros [Hacc|(net' & nm & addrs & Hn & Hm & Ha & Hi)].
      * left. destruct (name_mappings b !! net) as [nm|]; [|done].
        destruct (nm !! name); [|done]. apply elem_of_app. by left.
      * apply elem_of_cons in Hn as [->|Hn].
        -- left. rewrite Hm, Ha. apply elem_of_app. by right.
        -- right. by exists net', nm, addrs.
Qed.

(** [DNSBackend::lookup] (backend/mod.rs) never returns an empty list, and
    the addresses it returns are exactly those listed under the normalised
    name in the name tables of the requester's networks, or of the network
    the query came in on when the requester is unknown. *)
Theorem lookup_answers_exact (b : DNSBackend) (requester : IpAddr) (network_name entry : string) :
  lookup b requester network_name entry <> Some [] /\
  forall ip,
    (exists l, lookup b requester network_name entry = Some l /\ ip ∈ l) <->
    exists net nm addrs,
      net ∈ match ip_mappings b !! requester with Some n => n | None => [network_name] end /\
      name_mappings b !! net = Some nm /\ nm !! lookup_name b entry = Some addrs /\ ip ∈ addrs.
Proof.
  unfold lookup. cbv zeta.
  set (nets := match ip_mappings b !! requester with Some n => n | None => [network_name] end).
  split.
  - by destruct (fold_left _ _ []).
  - intros ip. pose proof (lookup_fold_elem b (lookup_name b entry) nets [] ip) as Hf.
    destruct (fold_left _ _ []) as [|x xs] eqn:E.
    + split; [by intros (l & ? & _)|]. intros Hi.
      assert (Hn : ip ∈ ([] : list IpAddr)) by (apply Hf; by right).
      by apply elem_of_nil in Hn.
    + split.
      * intros (l & Hl & Hi). injection Hl as <-. apply Hf in Hi as [Hi|Hi]; [|done].
        by apply elem_of_nil in Hi.
      * intros Hi. exists (x :: xs). split; [done|]. apply Hf. by right.
Qed.





(** [DNSBackend::reverse_lookup] (backend/mod.rs) answers with the names
    of the first of the requester's networks, in the order the networks
    are listed, whose reverse table has the address; an unknown requester
    gets no answer. *)
Theorem reverse_lookup_first_network (b : DNSBackend) (requester lookup_ip : IpAddr) :
  reverse_lookup b requester lookup_ip =
  match ip_mappings b !! requester with
  | None => None
  | Some nets =>
      head (omap (fun net => match reverse_mappings b !! net with
                             | Some ips => ips !! lookup_ip
                             | None => None
                             end) nets)
  end.
Proof.
  unfold reverse_lookup. destruct (ip_mappings b !! requester) as [nets|]; [|done].
  induction nets as [|net nets IH]; [done|]. simpl.
  destruct (reverse_mappings b !! net) as [ips|]; [|exact IH].
  destruct (ips !! lookup_ip); [done|exact IH].
Qed.

(** [DNSBackend::ctr_is_internal] (backend/mod.rs) holds exactly when the
    requester is known and none of its networks is flagged non-internal;
    networks without a flag do not count. *)
Theorem ctr_is_internal_spec (b : DNSBackend) (requester : IpAddr) :
  ctr_is_internal b requester = true <->
  exists nets, ip_mappings b !! requester = Some nets /\
    forall net, net ∈ nets -> network_is_internal b !! net <> Some false.
Proof.
  unfold ctr_is_internal. destruct (ip_mappings b !! requester) as [nets|].
  - rewrite forallb_forall. split.
    + intros H. exists nets. split; [done|]. intros net Hn Hf.
      apply list_elem_of_In in Hn. specialize (H net Hn). by rewrite Hf in H.
    + intros (nets' & Hs & H) net Hn. injection Hs as <-.
      apply list_elem_of_In in Hn. specialize (H net Hn).
      destruct (network_is_internal b !! net) as [[]|]; done.
  - split; [done|]. by intros (nets & ? & _).
Qed.

End BackendMore.

(* --------------------------------------------------------------------- *)
(** ** Configuration parser: file layout, errors and the listen plan *)
(* --------------------------------------------------------------------- *)

Module ConfigMore.
Import Config ConfigWalk ConfigInternal.

Lemma split_char_cons c s : exists x xs, Str.split_char c s = x :: xs.
Proof.
  induction s as [|y s IH]; simpl; [by eauto|].
  destruct (Ascii.eqb y c); [by eauto|].
  destruct IH as (x & xs & ->). eauto.
Qed.

Lemma map_res_length {A B E} (f : A -> result B E) l l' :
  Resolv.map_res f l = Ok l' -> length l' = length l.
Proof.
  revert l'. induction l as [|x l IH]; simpl; intros l'.
  - by intros [= <-].
  - destruct (f x); simpl; [|congruence].
    destruct (Resolv.map_res f l) eqn:Hm; simpl; [|congruence].
    intros [= <-]. simpl. by rewrite (IH _ eq_refl).
Qed.

Lemma parse_list_nonempty {A} (p : string -> option A) s l :
  parse_list p s = Ok l -> l <> [].
Proof.
  unfold parse_list. intros H. apply map_res_length in H.
  destruct (split_char_cons "," s) as (x & xs & E). rewrite E in H.
  by destruct l.
Qed.

Lemma lines_false lines b d c pc :
  parse_config_lines lines false b d c = Ok pc ->
  b <> [] /\ network_bind_ip pc = b /\ network_dnsservers pc = d /\
  exists cs, container_entry pc = (c ++ cs)%list /\
    Forall2 (fun line e => parse_ctr_line line = Ok e)
            (List.filter (fun s => negb (String.eqb s "")) lines) cs.
Proof.
  revert c. induction lines as [|line rest IH]; intros c; simpl.
  - destruct b as [|x b]; [congruence|]. intros [= <-]. simpl.
    split; [done|]. do 2 (split; [done|]). exists []. by rewrite app_nil_r.
  - destruct (String.eqb line "") eqn:E; simpl; [apply IH|].
    destruct (parse_ctr_line line) as [e|err] eqn:Hc; simpl; [|congruence].
    intros H. destruct (IH _ H) as (Hb & H1 & H2 & cs & H3 & H4).
    do 3 (split; [done|]). exists (e :: cs). split.
    + rewrite H3, <- app_assoc. reflexivity.
    + constructor; [exact Hc|exact H4].
Qed.

Lemma lines_false_conv lines b d c cs :
  b <> [] ->
  Forall2 (fun line e => parse_ctr_line line = Ok e)
          (List.filter (fun s => negb (String.eqb s "")) lines) cs ->
  parse_config_lines lines false b d c
  = Ok {| network_bind_ip := b; container_entry := (c ++ cs)%list; network_dnsservers := d |}.
Proof.
  intros Hb. revert c cs. induction lines as [|line rest IH]; intros c cs; simpl.
  - intros Hf. inversion Hf; subst. destruct b; [done|]. by rewrite app_nil_r.
  - destruct (String.eqb line "") eqn:E; simpl; [exact (IH c cs)|].
    intros Hf. inversion Hf as [|? e ? cs' He Hr]; subst. rewrite He. simpl.
    rewrite (IH (c ++ [e])%list cs' Hr). by rewrite <- app_assoc.
Qed.

Lemma lines_true lines pc :
  parse_config_lines lines true [] [] [] = Ok pc ->
  exists first rest,
    List.filter (fun s => negb (String.eqb s "")) lines = first :: rest /\
    parse_list IpParse.parse_ip (nth_part (Str.split_char " " first) 0) = Ok (network_bind_ip pc) /\
    (if Nat.ltb 1 (length (Str.split_char " " first))
     then parse_list IpParse.parse_ip (nth_part (Str.split_char " " first) 1)
          = Ok (network_dnsservers pc)
     else network_dnsservers pc = []) /\
    Forall2 (fun line e => parse_ctr_line line = Ok e) rest (container_entry pc).
Proof.
  induction lines as [|line rest IH]; simpl; [congruence|].
  destruct (String.eqb line "") eqn:E; simpl; [exact IH|].
  destruct (parse_list IpParse.parse_ip (nth_part (Str.split_char " " line) 0))
    as [binds|err] eqn:Eb; simpl; [|congruence].
  destruct (Nat.ltb 1 (length (Str.split_char " " line))) eqn:El.
  - destruct (parse_list IpParse.parse_ip (nth_part (Str.split_char " " line) 1))
      as [dns|err] eqn:Ed; simpl; [|congruence].
    intros H. destruct (lines_false _ _ _ _ _ H) as (_ & H1 & H2 & cs & H3 & H4).
    exists line, (List.filter (fun s => negb (String.eqb s "")) rest).
    split; [done|]. rewrite H1, H2, H3, El.
    split; [exact Eb|]. split; [exact Ed|exact H4].
  - simpl. intros H. destruct (lines_false _ _ _ _ _ H) as (_ & H1 & H2 & cs & H3 & H4).
    exists line, (List.filter (fun s => negb (String.eqb s "")) rest).
    split; [done|]. rewrite H1, H2, H3, El.
    split; [exact Eb|]. split; [reflexivity|exact H4].
Qed.

Lemma lines_true_conv lines first rest pc :
  List.filter (fun s => negb (String.eqb s "")) lines = first :: rest ->
  parse_list IpParse.parse_ip (nth_part (Str.split_char " " first) 0) = Ok (network_bind_ip pc) ->
  (if Nat.ltb 1 (length (Str.split_char " " first))
   then parse_list IpParse.parse_ip (nth_part (Str.split_char " " first) 1)
        = Ok (network_dnsservers pc)
   else network_dnsservers pc = []) ->
  Forall2 (fun line e => parse_ctr_line line = Ok e) rest (container_entry pc) ->
  parse_config_lines lines true [] [] [] = Ok pc.
Proof.
  intros Hl Hb Hd Hc. induction lines as [|line lines IH]; simpl in Hl |- *; [congruence|].
  destruct (String.eqb line "") eqn:E; simpl in Hl |- *; [by apply IH|].
  injection Hl as <- <-. rewrite Hb. simpl.
  pose proof (parse_list_nonempty _ _ _ Hb) as Hne.
  destruct (Nat.ltb 1 (length (Str.split_char " " line))).
  - rewrite Hd. simpl. rewrite (lines_false_conv _ _ _ [] _ Hne Hc). by destruct pc.
  - simpl. rewrite (lines_false_conv _ _ _ [] _ Hne Hc). destruct pc; simpl in *. by subst.
Qed.

Lemma lines_no_bind lines :
  List.filter (fun s => negb (String.eqb s "")) lines = [] ->
  parse_config_lines lines true [] [] []
  = Err (Msg "configuration file does not provide any bind addresses").
Proof.
  induction lines as [|line rest IH]; simpl; [done|].
  destruct (String.eqb line "") eqn:E; simpl; [exact IH|congruence].
Qed.



(** PID file *)

Lemma walk_noop l1 e l2 :
  (forall st, entry_step st e = Ok st) -> walk (l1 ++ e :: l2) = walk (l1 ++ l2).
Proof.
  intros He. unfold walk. rewrite !fold_left_app. simpl. f_equal.
  destruct (fold_left _ l1 _) as [st|err]; simpl; [|done].
  by rewrite He.
Qed.

Lemma entry_step_pid st file : entry_step st (Entry (Some AARDVARK_PID_FILE) file) = Ok st.
Proof. unfold entry_step. by rewrite bool_decide_eq_true_2. Qed.

(** Errors *)

Lemma walk_err l s err :
  fold_left wstep l (Ok s) = Err err ->
  err = Msg "configuration file name has non-UTF8 characters" /\
  exists file pc, In (Entry None file) l /\ parse_config file = Ok pc.
Proof.
  revert s. induction l as [|e l IH]; intros s; simpl; [congruence|].
  destruct (entry_step s e) as [s1|err'] eqn:E.
  - intros H. destruct (IH _ H) as (-> & file & pc & Hin & Hp).
    split; [done|]. exists file, pc. by split; [right|].
  - rewrite fold_wstep_err. intros [= <-].
    destruct e as [k|[name|] file]; simpl in E; [congruence| |].
    + try (case_bool_decide; [congruence|]).
      destruct (parse_config file); [|congruence].
      destruct (network_of_file name); congruence.
    + try (case_bool_decide; [congruence|]).
      destruct (parse_config file) as [pc|] eqn:Hp; [|congruence].
      injection E as <-. split; [done|]. exists file, pc. by split; [left|].
Qed.

Lemma ctr_step_members net i st e k :
  (forall k, is_Some (container_ips st !! k) -> is_Some (network_membership st !! k)) ->
  is_Some (container_ips (ctr_step net i st e) !! k) ->
  is_Some (network_membership (ctr_step net i st e) !! k).
Proof.
  intros Hinv. unfold ctr_step. destruct (fold_left _ _ _) as [[? ?] ?]. simpl.
  unfold append_at. destruct (decide (k = id e)) as [->|Hne].
  - rewrite !lookup_insert_eq. intros _. by eexists.
  - rewrite !lookup_insert_ne by congruence. apply Hinv.
Qed.

Lemma ctr_steps_members net i l st :
  (forall k, is_Some (container_ips st !! k) -> is_Some (network_membership st !! k)) ->
  forall k, is_Some (container_ips (fold_left (ctr_step net i) l st) !! k) ->
            is_Some (network_membership (fold_left (ctr_step net i) l st) !! k).
Proof.
  revert st. induction l as [|c l IH]; intros st Hinv; simpl; [done|].
  apply IH. intros k. by apply ctr_step_members.
Qed.

Lemma walk_members l s s' :
  fold_left wstep l (Ok s) = Ok s' ->
  (forall k, is_Some (container_ips s !! k) -> is_Some (network_membership s !! k)) ->
  forall k, is_Some (container_ips s' !! k) -> is_Some (network_membership s' !! k).
Proof.
  intros Hf. revert Hf.
  apply (fold_wstep_pres
           (fun s s' => (forall k, is_Some (container_ips s !! k) -> is_Some (network_membership s !! k)) ->
                        forall k, is_Some (container_ips s' !! k) -> is_Some (network_membership s' !! k))).
  - done.
  - intros a b c Hab Hbc Ha. by apply Hbc, Hab.
  - intros st st' e _ Hs Hinv.
    destruct (entry_step_cases _ _ _ Hs) as [[_ ->]|(n' & i' & pc' & _ & ->)]; [done|].
    unfold network_step. destruct (fold_left _ (network_bind_ip pc') _) as [l4 l6].
    apply ctr_steps_members. exact Hinv.
Qed.

Lemma build_ctrs_fold (st : ParseState) (l : list (string * list IpAddr)) (acc : gmap IpAddr (list string)) :
  (forall k ips, In (k, ips) l -> is_Some (network_membership st !! k)) ->
  exists ctrs,
    fold_left (fun acc '(ctr_id, ips) =>
                 let? ctrs := acc in
                 match network_membership st !! ctr_id with
                 | Some s => Ok (fold_left (fun ctrs ip => append_at ctrs ip s) ips ctrs)
                 | None => Err (Msg "Container ID has an entry in IPs table, but not network membership table")
                 end) l (Ok acc) = Ok ctrs.
Proof.
  revert acc. induction l as [|[k ips] l IH]; intros acc Hl; simpl; [by eauto|].
  destruct (Hl k ips (or_introl eq_refl)) as [s Hs]. rewrite Hs. simpl.
  apply IH. intros k' ips' Hin. exact (Hl k' ips' (or_intror Hin)).
Qed.

Lemma build_ctrs_ok st :
  (forall k, is_Some (container_ips st !! k) -> is_Some (network_membership st !! k)) ->
  exists ctrs, build_ctrs st = Ok ctrs.
Proof.
  intros Hinv. unfold build_ctrs. apply build_ctrs_fold.
  intros k ips Hin. apply Hinv. exists ips.
  apply elem_of_map_to_list. by apply list_elem_of_In.
Qed.

(** Listen plan *)

Lemma append_at_in (m : gmap string (list N)) k xs net a :
  (exists l, append_at m k xs !! net = Some l /\ In a l) <->
  (exists l, m !! net = Some l /\ In a l) \/ (net = k /\ In a xs).
Proof.
  unfold append_at. destruct (decide (net = k)) as [->|Hne].
  - rewrite lookup_insert_eq. split.
    + intros (l & [= <-] & Ha). apply in_app_or in Ha as [Ha|Ha]; [left|by right].
      destruct (m !! k) as [l|]; simpl in Ha; [by exists l|done].
    + intros [(l & Hl & Ha)|[_ Ha]]; eexists; (split; [reflexivity|]); apply in_or_app.
      * left. by rewrite Hl.
      * by right.
  - rewrite lookup_insert_ne by done. split; [by left|]. intros [H|[? _]]; done.
Qed.

Lemma bind_fold (net : string) ips l4 l6 l4' l6' n a :
  fold_left (fun '(l4, l6) ip =>
               match ip with
               | V4 a => (append_at l4 net [a], l6)
               | V6 b => (l4, append_at l6 net [b])
               end) ips (l4, l6) = (l4', l6') ->
  ((exists l, l4' !! n = Some l /\ In a l) <->
   (exists l, l4 !! n = Some l /\ In a l) \/ (n = net /\ In (V4 a) ips)) /\
  ((exists l, l6' !! n = Some l /\ In a l) <->
   (exists l, l6 !! n = Some l /\ In a l) \/ (n = net /\ In (V6 a) ips)).
Proof.
  revert l4 l6. induction ips as [|ip ips IH]; intros l4 l6; simpl.
  - intros [= -> ->]. split; (split; [by left|]); intros [H|[_ []]]; done.
  - destruct ip as [x|x]; intros H; destruct (IH _ _ H) as [I4 I6]; split.
    + rewrite I4, append_at_in. split.
      * intros [[H1|[-> H1]]|[-> H1]]; [by left|right; split; [done|]..].
        -- left. destruct H1 as [->|[]]. done.
        -- by right.
      * intros [H1|[-> [H1|H1]]]; [by left; left| |by right].
        injection H1 as ->. left. right. split; [done|]. by left.
    + rewrite I6. split.
      * intros [H1|[-> H1]]; [by left|right; split; [done|]; by right].
      * intros [H1|[-> [H1|H1]]]; [by left|done|by right].
    + rewrite I4. split.
      * intros [H1|[-> H1]]; [by left|right; split; [done|]; by right].
      * intros [H1|[-> [H1|H1]]]; [by left|done|by right].
    + rewrite I6, append_at_in. split.
      * intros [[H1|[-> H1]]|[-> H1]]; [by left|right; split; [done|]..].
        -- left. destruct H1 as [->|[]]. done.
        -- by right.
      * intros [H1|[-> [H1|H1]]]; [by left; left| |by right].
        injection H1 as ->. left. right. split; [done|]. by left.
Qed.

Lemma ctr_step_listen net i st e :
  listen_ips_4 (ctr_step net i st e) = listen_ips_4 st /\
  listen_ips_6 (ctr_step net i st e) = listen_ips_6 st.
Proof. unfold ctr_step. by destruct (fold_left _ _ _) as [[? ?] ?]. Qed.

Lemma ctr_steps_listen net i l st :
  listen_ips_4 (fold_left (ctr_step net i) l st) = listen_ips_4 st /\
  listen_ips_6 (fold_left (ctr_step net i) l st) = listen_ips_6 st.
Proof.
  revert st. induction l as [|c l IH]; intros st; simpl; [done|].
  destruct (IH (ctr_step net i st c)) as [-> ->]. apply ctr_step_listen.
Qed.

Lemma network_step_listen st net i pc n a :
  ((exists l, listen_ips_4 (network_step st net i pc) !! n = Some l /\ In a l) <->
   (exists l, listen_ips_4 st !! n = Some l /\ In a l) \/ (n = net /\ In (V4 a) (network_bind_ip pc))) /\
  ((exists l, listen_ips_6 (network_step st net i pc) !! n = Some l /\ In a l) <->
   (exists l, listen_ips_6 st !! n = Some l /\ In a l) \/ (n = net /\ In (V6 a) (network_bind_ip pc))).
Proof.
  unfold network_step. destruct (fold_left _ (network_bind_ip pc) _) as [l4 l6] eqn:E.
  destruct (ctr_steps_listen net i (container_entry pc)
    {| network_membership := network_membership st; container_ips := container_ips st;
       reverse := reverse st; network_names := network_names st;
       listen_ips_4 := l4; listen_ips_6 := l6; ctr_dns_server := ctr_dns_server st;
       network_dns_server := if i then <[net:=[]]> (if negb (bool_decide (network_dnsservers pc = [])) && negb i
             then <[net := network_dnsservers pc]> (network_dns_server st) else network_dns_server st)
             else (if negb (bool_decide (network_dnsservers pc = [])) && negb i
             then <[net := network_dnsservers pc]> (network_dns_server st) else network_dns_server st);
       network_is_internal := network_is_internal st |}) as [H4 H6].
  simpl in H4, H6. rewrite H4, H6.
  exact (bind_fold net (network_bind_ip pc) _ _ l4 l6 n a E).
Qed.

Lemma walk_listen l s s' n a :
  fold_left wstep l (Ok s) = Ok s' ->
  ((exists l, listen_ips_4 s' !! n = Some l /\ In a l) <->
   (exists l, listen_ips_4 s !! n = Some l /\ In a l) \/
   exists e i pc, In e l /\ entry_config e = Some (n, i, pc) /\ In (V4 a) (network_bind_ip pc)) /\
  ((exists l, listen_ips_6 s' !! n = Some l /\ In a l) <->
   (exists l, listen_ips_6 s !! n = Some l /\ In a l) \/
   exists e i pc, In e l /\ entry_config e = Some (n, i, pc) /\ In (V6 a) (network_bind_ip pc)).
Proof.
  revert s. induction l as [|e l IH]; intros s; simpl.
  - intros [= ->]. split; (split; [by left|]); intros [H|(? & ? & ? & [] & _)]; done.
  - destruct (entry_step s e) as [s1|err] eqn:E; [|by rewrite fold_wstep_err].
    intros Hf. destruct (IH _ Hf) as [I4 I6].
    destruct (entry_step_cases _ _ _ E) as [[Hc ->]|(net & i & pc & Hc & ->)].
    + split; [rewrite I4|rewrite I6]; split.
      * intros [H|(e' & i' & pc' & Hin & H)]; [by left|right; exists e', i', pc'; by split; [right|]].
      * intros [H|(e' & i' & pc' & [<-|Hin] & H & Ha)]; [by left|congruence|].
        right. by exists e', i', pc'.
      * intros [H|(e' & i' & pc' & Hin & H)]; [by left|right; exists e', i', pc'; by split; [right|]].
      * intros [H|(e' & i' & pc' & [<-|Hin] & H & Ha)]; [by left|congruence|].
        right. by exists e', i', pc'.
    + destruct (network_step_listen s net i pc n a) as [N4 N6].
      split; [rewrite I4, N4|rewrite I6, N6]; split.
      * intros [[H|[-> H]]|(e' & i' & pc' & Hin & H)]; [by left|right..].
        -- exists e, i, pc. by split; [left|].
        -- exists e', i', pc'. by split; [right|].
      * intros [H|(e' & i' & pc' & [<-|Hin] & H & Ha)]; [by left; left| |].
        -- rewrite Hc in H. injection H as -> -> ->. left. by right.
        -- right. by exists e', i', pc'.
      * intros [[H|[-> H]]|(e' & i' & pc' & Hin & H)]; [by left|right..].
        -- exists e, i, pc. by split; [left|].
        -- exists e', i', pc'. by split; [right|].
      * intros [H|(e' & i' & pc' & [<-|Hin] & H & Ha)]; [by left; left| |].
        -- rewrite Hc in H. injection H as -> -> ->. left. by right.
        -- right. by exists e', i', pc'.
Qed.

Lemma parse_configs_ok_listen dir fsd b l4 l6 :
  parse_configs dir fsd = Ok (b, l4, l6) ->
  exists entries st, dir_entries dir = Ok entries /\ walk entries = Ok st /\
    l4 = listen_ips_4 st /\ l6 = listen_ips_6 st.
Proof.
  unfold parse_configs.
  destruct (dir_is_dir dir) as [[]|k]; simpl; try congruence.
  destruct (dir_entries dir) as [entries|k]; simpl; [|congruence].
  destruct (walk entries) as [st|err] eqn:Hw; simpl; [|congruence].
  destruct (build_ctrs st) as [ctrs|err]; simpl; [|congruence].
  intros [= _ <- <-]. exists entries, st. done.
Qed.

End ConfigMore.

Module ConfigMoreProps.
Import Config ConfigWalk ConfigInternal ConfigMore ConfigFixtures.

(** [parse_config] (config/mod.rs) skips empty lines. It accepts a file
    exactly when the file has a non-empty line, the first such line is the
    network line (its first field a comma list of bind addresses, its
    optional second field a comma list of network resolvers), and every
    later non-empty line is a container line that [parse_ctr_line] accepts.
    The result lists those container entries in file order. *)
Theorem parse_config_structure (content : string) (pc : ParsedNetworkConfig) :
  parse_config (Ok content) = Ok pc <->
  exists first rest,
    List.filter (fun s => negb (String.eqb s "")) (Str.split_char "010"%char content)
      = first :: rest /\
    parse_list IpParse.parse_ip (nth_part (Str.split_char " " first) 0) = Ok (network_bind_ip pc) /\
    (if Nat.ltb 1 (length (Str.split_char " " first))
     then parse_list IpParse.parse_ip (nth_part (Str.split_char " " first) 1)
          = Ok (network_dnsservers pc)
     else network_dnsservers pc = []) /\
    Forall2 (fun line e => parse_ctr_line line = Ok e) rest (container_entry pc).
Proof.
  split.
  - intros H. exact (lines_true _ _ H).
  - intros (first & rest & H1 & H2 & H3 & H4). exact (lines_true_conv _ _ _ _ H1 H2 H3 H4).
Qed.

(** A file whose lines are all empty (an empty file included) is rejected
    by [parse_config] (config/mod.rs) with the "does not provide any bind
    addresses" error. *)
Theorem parse_config_no_bind_addresses (content : string) :
  List.filter (fun s => negb (String.eqb s "")) (Str.split_char "010"%char content) = [] ->
  parse_config (Ok content) = Err (Msg "configuration file does not provide any bind addresses").
Proof. intros H. exact (lines_no_bind _ H). Qed.

Lemma parse_config_no_bind_addresses_witness :
  List.filter (fun s => negb (String.eqb s "")) (Str.split_char "010"%char (String "010"%char "")) = [] /\
  parse_config (Ok (String "010"%char ""))
  = Err (Msg "configuration file does not provide any bind addresses").
Proof.
  split; [reflexivity|]. apply parse_config_no_bind_addresses. reflexivity.
Defined.



(** [parse_configs] (config/mod.rs) ignores a directory entry named
    [aardvark.pid], whatever the file holds: the result is that of the same
    directory without it. *)
Theorem parse_configs_ignores_pid_file (dir : ConfigDir) (fsd : string)
    (l1 l2 : list DirEntry) (file : result string IoErrorKind) :
  dir_entries dir = Ok (l1 ++ Entry (Some AARDVARK_PID_FILE) file :: l2)%list ->
  parse_configs dir fsd
  = parse_configs {| dir_is_dir := dir_is_dir dir; dir_entries := Ok (l1 ++ l2)%list |} fsd.
Proof.
  intros Hd. unfold parse_configs. simpl. rewrite Hd.
  destruct (dir_is_dir dir) as [[]|k]; simpl; [|done|done].
  rewrite walk_noop; [done|]. intros st. apply entry_step_pid.
Qed.

Lemma parse_configs_ignores_pid_file_witness :
  dir_entries (dir_of [Entry (Some "aardvark.pid") (Ok "4242");
                       Entry (Some "podman") (Ok podman_file)])
  = Ok ([] ++ Entry (Some AARDVARK_PID_FILE) (Ok "4242") :: [Entry (Some "podman") (Ok podman_file)])%list /\
  parse_configs (dir_of [Entry (Some "aardvark.pid") (Ok "4242");
                         Entry (Some "podman") (Ok podman_file)]) ".dns.podman"
  = parse_configs (dir_of [Entry (Some "podman") (Ok podman_file)]) ".dns.podman".
Proof.
  split; [reflexivity|].
  exact (parse_configs_ignores_pid_file
           (dir_of [Entry (Some "aardvark.pid") (Ok "4242");
                    Entry (Some "podman") (Ok podman_file)]) ".dns.podman"
           [] [Entry (Some "podman") (Ok podman_file)] (Ok "4242") eq_refl).
Defined.

(** [parse_configs] (config/mod.rs) fails in four ways only: the metadata
    of the directory cannot be read, the path is not a directory, the
    directory cannot be listed, or a file without a valid UTF-8 name has a
    content [parse_config] accepts. In particular the "Container ID has an
    entry in IPs table, but not network membership table" error is never
    returned. *)
Theorem parse_configs_errors (dir : ConfigDir) (fsd : string) (err : AardvarkError) :
  parse_configs dir fsd = Err err ->
  (exists k, dir_is_dir dir = Err k /\ err = IOError k) \/
  (dir_is_dir dir = Ok false /\ err = Msg "config directory must exist and be a directory") \/
  (dir_is_dir dir = Ok true /\ exists k, dir_entries dir = Err k /\ err = IOError k) \/
  (dir_is_dir dir = Ok true /\
   exists entries file pc, dir_entries dir = Ok entries /\ In (Entry None file) entries /\
     parse_config file = Ok pc /\ err = Msg "configuration file name has non-UTF8 characters").
Proof.
  unfold parse_configs.
  destruct (dir_is_dir dir) as [[]|k]; simpl.
  - destruct (dir_entries dir) as [entries|k]; simpl.
    + destruct (walk entries) as [st|err'] eqn:Hw; simpl.
      * destruct (build_ctrs_ok st) as [ctrs ->]; [|done].
        apply (walk_members entries empty_state st Hw).
        intros k [x Hx]. simpl in Hx. by rewrite lookup_empty in Hx.
      * intros [= <-]. do 3 right. split; [done|].
        destruct (walk_err entries empty_state err' Hw) as (-> & file & pc & Hin & Hp).
        by exists entries, file, pc.
    + intros [= <-]. do 2 right. left. split; [done|]. by exists k.
  - intros [= <-]. right. by left.
  - intros [= <-]. left. by exists k.
Qed.

Lemma parse_configs_errors_witness :
  parse_configs (dir_of [Entry None (Ok podman_file)]) ""
  = Err (Msg "configuration file name has non-UTF8 characters") /\
  ((exists k, dir_is_dir (dir_of [Entry None (Ok podman_file)]) = Err k /\
              Msg "configuration file name has non-UTF8 characters" = IOError k) \/
   (dir_is_dir (dir_of [Entry None (Ok podman_file)]) = Ok false /\
    Msg "configuration file name has non-UTF8 characters"
    = Msg "config directory must exist and be a directory") \/
   (dir_is_dir (dir_of [Entry None (Ok podman_file)]) = Ok true /\
    exists k, dir_entries (dir_of [Entry None (Ok podman_file)]) = Err k /\
              Msg "configuration file name has non-UTF8 characters" = IOError k) \/
   (dir_is_dir (dir_of [Entry None (Ok podman_file)]) = Ok true /\
    exists entries file pc, dir_entries (dir_of [Entry None (Ok podman_file)]) = Ok entries /\
      In (Entry None file) entries /\ parse_config file = Ok pc /\
      Msg "configuration file name has non-UTF8 characters"
      = Msg "configuration file name has non-UTF8 characters")).
Proof.
  assert (H : parse_configs (dir_of [Entry None (Ok podman_file)]) ""
              = Err (Msg "configuration file name has non-UTF8 characters"))
    by (vm_compute; reflexivity).
  split; [exact H|].
  exact (parse_configs_errors (dir_of [Entry None (Ok podman_file)]) ""
           (Msg "configuration file name has non-UTF8 characters") H).
Defined.

(** The listen plans [parse_configs] (config/mod.rs) returns hold exactly
    the bind addresses of the files it accepts: an IPv4 address [a] is
    listed for network [n] if and only if some directory entry is accepted
    as a file of network [n] whose bind addresses include [a]; the same for
    IPv6. *)
Theorem parse_configs_listen_plan (dir : ConfigDir) (fsd : string) (entries : list DirEntry)
    (b : Backend.DNSBackend) (l4 l6 : gmap string (list N)) :
  dir_entries dir = Ok entries ->
  parse_configs dir fsd = Ok (b, l4, l6) ->
  (forall n a, (exists l, l4 !! n = Some l /\ In a l) <->
     exists e i pc, In e entries /\ entry_config e = Some (n, i, pc) /\
                    In (V4 a) (network_bind_ip pc)) /\
  (forall n a, (exists l, l6 !! n = Some l /\ In a l) <->
     exists e i pc, In e entries /\ entry_config e = Some (n, i, pc) /\
                    In (V6 a) (network_bind_ip pc)).
Proof.
  intros Hd Hp.
  destruct (parse_configs_ok_listen _ _ _ _ _ Hp) as (entries' & st & Hd' & Hw & -> & ->).
  rewrite Hd in Hd'. injection Hd' as <-.
  split; intros n a; destruct (walk_listen entries empty_state st n a Hw) as [I4 I6].
  - rewrite I4. simpl. rewrite lookup_empty. split; [|by right].
    by intros [(? & ? & _)|H].
  - rewrite I6. simpl. rewrite lookup_empty. split; [|by right].
    by intros [(? & ? & _)|H].
Qed.

Lemma parse_configs_listen_plan_witness :
  dir_entries good_and_broken
  = Ok [Entry (Some "podman") (Ok podman_file); Entry (Some "broken") (Ok broken_file)] /\
  parse_configs good_and_broken "dns.podman"
  = Ok (ServeFixtures.reload_conf, ServeFixtures.reload_l4, ServeFixtures.reload_l6) /\
  (forall n a, (exists l, ServeFixtures.reload_l4 !! n = Some l /\ In a l) <->
     exists e i pc, In e [Entry (Some "podman") (Ok podman_file);
                          Entry (Some "broken") (Ok broken_file)] /\
       entry_config e = Some (n, i, pc) /\ In (V4 a) (network_bind_ip pc)) /\
  (forall n a, (exists l, ServeFixtures.reload_l6 !! n = Some l /\ In a l) <->
     exists e i pc, In e [Entry (Some "podman") (Ok podman_file);
                          Entry (Some "broken") (Ok broken_file)] /\
       entry_config e = Some (n, i, pc) /\ In (V6 a) (network_bind_ip pc)).
Proof.
  assert (Hp : parse_configs good_and_broken "dns.podman"
               = Ok (ServeFixtures.reload_conf, ServeFixtures.reload_l4, ServeFixtures.reload_l6))
    by (vm_compute; reflexivity).
  split; [reflexivity|]. split; [exact Hp|].
  exact (parse_configs_listen_plan good_and_broken "dns.podman"
           [Entry (Some "podman") (Ok podman_file); Entry (Some "broken") (Ok broken_file)]
           ServeFixtures.reload_conf ServeFixtures.reload_l4 ServeFixtures.reload_l6 eq_refl Hp).
Defined.

End ConfigMoreProps.
